(** * GeoPortal backend: the layer cache and its writers

    A shallow embedding of [backend/app.py]: the name-keyed layer cache,
    geometry-kind inference, style derivation, the refresh orchestrator with
    its sample fallback, and the file-system watcher.

    Conventions of the embedding.
    - Python [str] values are [string]s of ASCII characters; [str.lower]
      is modelled on the letters [A]-[Z].
    - A Python [dict] is insertion-ordered: it is modelled by an association
      list kept in insertion order ([PyDict]); that keys stay unique is a
      theorem about the operations, not a property of the type.
    - Paths are POSIX paths.
    - Everything the program obtains from outside (directory listings, the
      vector-file parser, the wall clock) is a field of [world]; the mutable
      globals and the observable effects are fields of [state]. *)

From stdpp Require Import gmap strings list fin_maps.
From Stdlib Require Import ZArith Lia Ascii.
From Stdlib Require String.

Set Warnings "-register-all,-clear-no-such-hyp".

(** ** Python strings *)

Module PyStr.

(** [c.lower()] for one ASCII character. *)
Definition lower_ascii (c : ascii) : ascii :=
  let n := nat_of_ascii c in
  if (65 <=? n)%nat && (n <=? 90)%nat then ascii_of_nat (n + 32) else c.

(** [s.lower()] *)
Fixpoint lower (s : string) : string :=
  match s with
  | EmptyString => EmptyString
  | String c r => String (lower_ascii c) (lower r)
  end.

(** [s.startswith(k)] *)
Definition startswith (s k : string) : bool := String.prefix k s.

(** [k in s] *)
Fixpoint contains (k s : string) : bool :=
  String.prefix k s ||
  match s with
  | EmptyString => false
  | String _ r => contains k r
  end.

(** [s.endswith(suf)] *)
Fixpoint endswith (s suf : string) : bool :=
  String.eqb s suf ||
  match s with
  | EmptyString => false
  | String _ r => endswith r suf
  end.

(** [s.rfind(c)], with [None] for Python's [-1]. *)
Fixpoint rfind (c : ascii) (s : string) : option nat :=
  match s with
  | EmptyString => None
  | String a r =>
      match rfind c r with
      | Some i => Some (S i)
      | None => if Stdlib.Strings.Ascii.eqb a c then Some 0%nat else None
      end
  end.

(** [PurePosixPath(p).name] for a path whose last component is neither
    empty nor a dot; every path the program takes the stem of ends in
    [".shp"]. *)
Definition path_name (p : string) : string :=
  match rfind "/"%char p with
  | Some i => String.substring (S i) (String.length p - S i) p
  | None => p
  end.

(** [Path(p).stem]: the name without its last suffix; a leading or a
    trailing dot does not start a suffix. *)
Definition stem (p : string) : string :=
  let name := path_name p in
  match rfind "."%char name with
  | Some i =>
      if (0 <? i)%nat && (i <? String.length name - 1)%nat
      then String.substring 0 i name
      else name
  | None => name
  end.

(** [os.path.join(a, b)] *)
Definition path_join (a b : string) : string :=
  if startswith b "/" then b
  else if String.eqb a "" || endswith a "/" then a +:+ b
  else a +:+ "/" +:+ b.

End PyStr.

(** ** Python dictionaries, in insertion order *)

Module PyDict.
Section Ops.
Context {V : Type}.

Definition t := list (string * V).

(** [d.get(k)] *)
Fixpoint get (k : string) (d : list (string * V)) : option V :=
  match d with
  | [] => None
  | (k', v) :: r => if String.eqb k' k then Some v else get k r
  end.

(** [d[k] = v]: overwrite in place when the key is present, append
    otherwise. *)
Fixpoint set (k : string) (v : V) (d : list (string * V)) : list (string * V) :=
  match d with
  | [] => [(k, v)]
  | (k', v') :: r =>
      if String.eqb k' k then (k', v) :: r else (k', v') :: set k v r
  end.

(** [d.pop(k, None)], result discarded. *)
Fixpoint pop (k : string) (d : list (string * V)) : list (string * V) :=
  match d with
  | [] => []
  | (k', v') :: r => if String.eqb k' k then r else (k', v') :: pop k r
  end.

(** [d.clear()] *)
Definition clear (d : list (string * V)) : list (string * V) := [].

(** [list(d.keys())], [list(d.values())], [len(d)], [not d] *)
Definition keys (d : list (string * V)) : list string := d.*1.
Definition values (d : list (string * V)) : list V := d.*2.
Definition len (d : list (string * V)) : nat := length d.
Definition is_empty (d : list (string * V)) : bool :=
  match d with [] => true | _ => false end.

(** Well-formedness: no key is stored twice. *)
Definition wf (d : list (string * V)) : Prop := NoDup (keys d).
End Ops.
End PyDict.

(** ** Configuration tables *)

Inductive ltype := polygon | polyline | point.

Global Instance ltype_eq_dec : EqDecision ltype.
Proof. solve_decision. Defined.

Definition NAME_TYPE : list (string * ltype) :=
  [ ("admin", polygon); ("boundary", polygon); ("boundaries", polygon);
    ("building", polygon); ("buildings", polygon); ("landuse", polygon);
    ("land_use", polygon); ("parcel", polygon); ("zone", polygon); ("block", polygon);
    ("water", polyline); ("water_supply", polyline); ("sewerage", polyline); ("sewer", polyline);
    ("road", polyline); ("roads", polyline); ("street", polyline); ("streets", polyline);
    ("pipe", polyline); ("pipeline", polyline); ("network", polyline); ("drain", polyline);
    ("chamber", point); ("chambers", point); ("manhole", point); ("manholes", point);
    ("utility", point); ("utilities", point); ("hydrant", point); ("valve", point);
    ("pump", point); ("asset", point); ("assets", point); ("well", point); ("tower", point) ].

Definition GEOM_MAP : list (string * ltype) :=
  [ ("Point", point); ("MultiPoint", point);
    ("LineString", polyline); ("MultiLineString", polyline);
    ("Polygon", polygon); ("MultiPolygon", polygon) ].

Definition COLORS : list string :=
  [ "#4FC3F7"; "#81C784"; "#FFB74D"; "#E57373"; "#CE93D8";
    "#4DB6AC"; "#F06292"; "#AED581"; "#FFD54F"; "#26C6DA";
    "#7986CB"; "#A1887F"; "#90A4AE"; "#FF8A65"; "#4DD0E1" ].

(** JSON-like Python values.  A float is named by a decimal:
    [PFloat m e] is the float written [m * 10^e]. *)
Inductive pyval :=
| PNone
| PInt (z : Z)
| PFloat (m e : Z)
| PStr (s : string)
| PList (l : list pyval)
| PDict (d : list (string * pyval)).

Definition DEF_STYLE (t : ltype) : list (string * pyval) :=
  match t with
  | polygon => [ ("fillOpacity", PFloat 2 (-1)); ("weight", PInt 2); ("opacity", PFloat 9 (-1)) ]
  | polyline => [ ("weight", PInt 3); ("opacity", PFloat 9 (-1)) ]
  | point => [ ("radius", PInt 7); ("fillOpacity", PFloat 9 (-1)); ("weight", PInt 2); ("opacity", PInt 1) ]
  end.

(** [COLORS[i]] for an index that was reduced modulo [len(COLORS)]. *)
Definition COLORS_at (i : nat) : string := nth i COLORS "".

(** ** Data model *)

(** What the program observes of a [GeoDataFrame]. *)
Record GeoDataFrame := {
  crs : option Z;                      (* EPSG code of the declared reference, if any *)
  columns : list (string * bool);      (* column name, and whether its dtype is datetime64 *)
  geom_type : list (option string);    (* [gdf.geometry.geom_type], one entry per row *)
  to_json : pyval;                     (* [json.loads(gdf.to_json())] *)
  total_bounds : list pyval            (* [gdf.total_bounds.tolist()] *)
}.

(** A cached layer.  [style] is absent on the dictionary [load_shp]
    returns and is added by its callers; [file_path] is [None] on samples. *)
Record layer := {
  name : string;
  type : ltype;
  geojson : pyval;
  bounds : list pyval;
  count : nat;
  fields : list string;
  style : option (list (string * pyval));
  file_path : option string;
  loaded_at : Z
}.

(** [d["style"] = s] *)
Definition set_style (d : layer) (s : list (string * pyval)) : layer :=
  {| name := name d; type := type d; geojson := geojson d; bounds := bounds d;
     count := count d; fields := fields d; style := Some s;
     file_path := file_path d; loaded_at := loaded_at d |}.

(** ** Pure helpers *)

(** [GEOM_MAP.get(t, default)]; a missing geometry has type [None], which
    is no key of the table. *)
Definition GEOM_MAP_get (t : option string) (default : ltype) : ltype :=
  match t with
  | Some s => match PyDict.get s GEOM_MAP with Some v => v | None => default end
  | None => default
  end.

(** The loop [for k,v in NAME_TYPE.items(): if k in n: return v]. *)
Fixpoint name_type_loop (items : list (string * ltype)) (n : string) : option ltype :=
  match items with
  | [] => None
  | (k, v) :: rest => if PyStr.contains k n then Some v else name_type_loop rest n
  end.

Definition detect_type (nm : string) (gdf : option GeoDataFrame) : ltype :=
  let n := PyStr.lower nm in
  match name_type_loop NAME_TYPE n with
  | Some v => v
  | None =>
      match gdf with
      | Some g =>
          match geom_type g with
          | t0 :: _ => GEOM_MAP_get t0 polygon
          | [] => polygon
          end
      | None => polygon
      end
  end.

Definition make_style (lt : ltype) (color : string) : list (string * pyval) :=
  let s := DEF_STYLE lt in
  let s := PyDict.set "color" (PStr color) s in
  match lt with
  | polygon | point => PyDict.set "fillColor" (PStr color) s
  | polyline => s
  end.

(** ** The outside world and the program state *)

(** A directory entry; the order of a [list node] is the order in which
    [os.scandir] reports the entries. *)
Inductive node :=
| File (nm : string)
| Dir (nm : string) (children : list node).

Definition node_name (n : node) : string :=
  match n with File nm => nm | Dir nm _ => nm end.

Record world := {
  DATA_DIR : string;                             (* [str(DATA_DIR)] *)
  tree : list node;                              (* the content of [DATA_DIR] *)
  magic_dirs : bool -> list (string * list node);
    (* when [str(DATA_DIR)] holds a glob magic character: the directories it
       matches when [glob] reads it as a pattern, with [recursive] set or
       not, each with its own content *)
  HAS_GPD : bool;                                (* geopandas and pandas can be imported *)
  read_file : string -> option GeoDataFrame;     (* [gpd.read_file]; [None] when it raises *)
  to_crs : GeoDataFrame -> option GeoDataFrame;  (* [gdf.to_crs("EPSG:4326")]; [None] when it raises *)
  clock : nat -> Z                               (* the n-th reading of [time.time()] *)
}.

Inductive event :=
| LockAcquire                                    (* entering [with cache_lock:] *)
| LockRelease                                    (* leaving it *)
| ReadFile (path : string)                       (* [gpd.read_file(path)] *)
| PrintErr (path : string)                       (* [[ERR] path: e] *)
| PrintLoad (nm : string) (t : ltype) (n : nat)  (* [[LOAD] name | type | count] *)
| PrintInfo (n : nat)                            (* [[INFO] n sample layers loaded] *)
| PrintWatch (nm : string).                      (* [[WATCH] Updated: name] *)

Record state := {
  layer_cache : list (string * layer);
  trace : list event;                            (* effects so far, oldest first *)
  ticks : nat                                    (* readings of the clock so far *)
}.

Definition with_cache (c : list (string * layer)) (s : state) : state :=
  {| layer_cache := c; trace := trace s; ticks := ticks s |}.

Definition emit (e : event) (s : state) : state :=
  {| layer_cache := layer_cache s; trace := trace s ++ [e]; ticks := ticks s |}.

Definition time_time (w : world) (s : state) : Z * state :=
  (clock w (ticks s),
   {| layer_cache := layer_cache s; trace := trace s; ticks := S (ticks s) |}).

(** ** Directory enumeration: [glob.glob] on the two patterns of [refresh_all] *)

Module Glob.

(** [_ishidden(name)] *)
Definition ishidden (nm : string) : bool := PyStr.startswith nm ".".

(** [fnmatch.filter(names, "*.shp")] keeps the names ending in [".shp"]. *)
Definition fnmatch_shp (nm : string) : bool := PyStr.endswith nm ".shp".

(** [_glob1(dirname, "*.shp", dironly=False)] on the listing of [dirname]:
    hidden names are dropped first, since the pattern is not hidden. *)
Definition glob1 (listing : list node) : list string :=
  filter (fun nm => fnmatch_shp nm = true)
    (filter (fun nm => ishidden nm = false) (map node_name listing)).

(** [_rlistdir(dirname, dironly=True)]: every directory below [dirname]
    that is not hidden, parents before children, as a path relative to
    [dirname] and paired with its own listing. *)
Fixpoint rlistdir_node (n : node) : list (string * list node) :=
  match n with
  | File _ => []
  | Dir x ch =>
      if ishidden x then []
      else (x, ch) ::
           map (fun yl => (PyStr.path_join x (fst yl), snd yl))
               (flat_map rlistdir_node ch)
  end.

Definition rlistdir (listing : list node) : list (string * list node) :=
  flat_map rlistdir_node listing.

(** [_glob2(dirname, "**", dironly=True)]: the empty path, then
    [_rlistdir]. *)
Definition glob2 (listing : list node) : list (string * list node) :=
  ("", listing) :: rlistdir listing.

(** [has_magic(s)]: one of the characters [*], [?] and [[] occurs. *)
Definition has_magic (s : string) : bool :=
  PyStr.contains "*" s || PyStr.contains "?" s || PyStr.contains "[" s.

(** The directories the part of the pattern before the last component
    stands for: the data directory itself, taken literally, unless its
    path holds glob magic; then [glob] reads the path as a pattern too and
    the directories are the ones that pattern matches. *)
Definition base_dirs (recursive : bool) (w : world) : list (string * list node) :=
  if has_magic (DATA_DIR w) then magic_dirs w recursive
  else [(DATA_DIR w, tree w)].

(** [glob.glob(str(DATA_DIR / "**/*.shp"), recursive=True)] *)
Definition glob_recursive (w : world) : list string :=
  flat_map
    (fun base =>
       flat_map
         (fun dl =>
            let dirname := PyStr.path_join (fst base) (fst dl) in
            map (PyStr.path_join dirname) (glob1 (snd dl)))
         (glob2 (snd base)))
    (base_dirs true w).

(** [glob.glob(str(DATA_DIR / "*.shp"))] *)
Definition glob_flat (w : world) : list string :=
  flat_map
    (fun base => map (PyStr.path_join (fst base)) (glob1 (snd base)))
    (base_dirs false w).

End Glob.

(** ** The geometry loader *)

(** [gdf.set_crs("EPSG:4326")] on a frame without a reference. *)
Definition set_crs (g : GeoDataFrame) : GeoDataFrame :=
  {| crs := Some 4326%Z; columns := columns g; geom_type := geom_type g;
     to_json := to_json g; total_bounds := total_bounds g |}.

(** The loop turning every datetime column into strings. *)
Definition astype_str (g : GeoDataFrame) : GeoDataFrame :=
  {| crs := crs g; columns := map (fun c => (fst c, false)) (columns g);
     geom_type := geom_type g; to_json := to_json g; total_bounds := total_bounds g |}.

(** Lines 90-95 of [load_shp]: the frame as it stands when the record is
    built, [None] when one of the library calls raises. *)
Definition open_frame (w : world) (path : string) : option GeoDataFrame :=
  match read_file w path with
  | None => None
  | Some gdf =>
      let r := match crs gdf with
               | None => Some (set_crs gdf)
               | Some e => if (e =? 4326)%Z then Some gdf else to_crs w gdf
               end in
      match r with
      | None => None
      | Some gdf => Some (astype_str gdf)
      end
  end.

Definition load_shp (w : world) (path : string) (s : state) : option layer * state :=
  if negb (HAS_GPD w) then (None, s)
  else
    let s := emit (ReadFile path) s in
    match open_frame w path with
    | None => (None, emit (PrintErr path) s)
    | Some gdf =>
        let nm := PyStr.stem path in
        let (now, s) := time_time w s in
        (Some {| name := nm; type := detect_type nm (Some gdf);
                 geojson := to_json gdf;
                 bounds := total_bounds gdf; count := length (geom_type gdf);
                 fields := filter (fun c => negb (String.eqb c "geometry") = true)
                                  (map fst (columns gdf));
                 style := None;
                 file_path := Some path; loaded_at := now |}, s)
    end.

(** ** The refresh orchestrator *)

Definition shps (w : world) : list string :=
  Glob.glob_recursive w ++ Glob.glob_flat w.

(** The body of [for i, shp in enumerate(shps)], from index [i] on. *)
Fixpoint refresh_loop (w : world) (i : nat) (l : list string) (s : state) : state :=
  match l with
  | [] => s
  | shp :: rest =>
      let (d, s) := load_shp w shp s in
      let s :=
        match d with
        | Some d =>
            let d := set_style d (make_style (type d) (COLORS_at (i mod length COLORS))) in
            let s := with_cache (PyDict.set (name d) d (layer_cache s)) s in
            emit (PrintLoad (name d) (type d) (count d)) s
        | None => s
        end in
      refresh_loop w (S i) rest s
  end.

(** The hard-coded sample layers. *)
Record feature := {
  props : list (string * pyval);
  coords : pyval
}.

Record raw_layer := {
  raw_name : string;
  raw_type : ltype;
  raw_color : string;
  raw_bounds : list pyval;
  raw_fields : list string;
  raw_features : list feature
}.

Definition raw : list raw_layer :=
  [ {| raw_name := "administrative_boundaries"; raw_type := polygon; raw_color := "#4FC3F7";
       raw_bounds := [PFloat 7282 (-2); PFloat 1897 (-2); PFloat 7293 (-2); PFloat 1908 (-2)];
       raw_fields := ["name"; "population"; "area_km2"];
       raw_features := [
        {| props := [("name", PStr "District A"); ("population", PInt 45000); ("area_km2", PFloat 125 (-1))];
           coords := PList [PList [PList [PFloat 7282 (-2); PFloat 1897 (-2)]; PList [PFloat 7287 (-2); PFloat 1897 (-2)]; PList [PFloat 7287 (-2); PFloat 1902 (-2)]; PList [PFloat 7282 (-2); PFloat 1902 (-2)]; PList [PFloat 7282 (-2); PFloat 1897 (-2)]]] |};
        {| props := [("name", PStr "District B"); ("population", PInt 33000); ("area_km2", PFloat 93 (-1))];
           coords := PList [PList [PList [PFloat 7287 (-2); PFloat 1897 (-2)]; PList [PFloat 7293 (-2); PFloat 1897 (-2)]; PList [PFloat 7293 (-2); PFloat 1902 (-2)]; PList [PFloat 7287 (-2); PFloat 1902 (-2)]; PList [PFloat 7287 (-2); PFloat 1897 (-2)]]] |};
        {| props := [("name", PStr "District C"); ("population", PInt 62000); ("area_km2", PFloat 151 (-1))];
           coords := PList [PList [PList [PFloat 7282 (-2); PFloat 1902 (-2)]; PList [PFloat 7293 (-2); PFloat 1902 (-2)]; PList [PFloat 7293 (-2); PFloat 1908 (-2)]; PList [PFloat 7282 (-2); PFloat 1908 (-2)]; PList [PFloat 7282 (-2); PFloat 1902 (-2)]]] |} ] |};
    {| raw_name := "buildings"; raw_type := polygon; raw_color := "#FFB74D";
       raw_bounds := [PFloat 72832 (-3); PFloat 18975 (-3); PFloat 7289 (-2); PFloat 19011 (-3)];
       raw_fields := ["id"; "use"; "floors"; "year"];
       raw_features := [
        {| props := [("id", PStr "B001"); ("use", PStr "Residential"); ("floors", PInt 4); ("year", PInt 2010)];
           coords := PList [PList [PList [PFloat 72832 (-3); PFloat 18975 (-3)]; PList [PFloat 72836 (-3); PFloat 18975 (-3)]; PList [PFloat 72836 (-3); PFloat 18979 (-3)]; PList [PFloat 72832 (-3); PFloat 18979 (-3)]; PList [PFloat 72832 (-3); PFloat 18975 (-3)]]] |};
        {| props := [("id", PStr "B002"); ("use", PStr "Commercial"); ("floors", PInt 8); ("year", PInt 2015)];
           coords := PList [PList [PList [PFloat 72841 (-3); PFloat 18982 (-3)]; PList [PFloat 72846 (-3); PFloat 18982 (-3)]; PList [PFloat 72846 (-3); PFloat 18987 (-3)]; PList [PFloat 72841 (-3); PFloat 18987 (-3)]; PList [PFloat 72841 (-3); PFloat 18982 (-3)]]] |};
        {| props := [("id", PStr "B003"); ("use", PStr "Industrial"); ("floors", PInt 2); ("year", PInt 2005)];
           coords := PList [PList [PList [PFloat 72856 (-3); PFloat 1899 (-2)]; PList [PFloat 72863 (-3); PFloat 1899 (-2)]; PList [PFloat 72863 (-3); PFloat 18996 (-3)]; PList [PFloat 72856 (-3); PFloat 18996 (-3)]; PList [PFloat 72856 (-3); PFloat 1899 (-2)]]] |};
        {| props := [("id", PStr "B004"); ("use", PStr "Residential"); ("floors", PInt 5); ("year", PInt 2018)];
           coords := PList [PList [PList [PFloat 72871 (-3); PFloat 18978 (-3)]; PList [PFloat 72875 (-3); PFloat 18978 (-3)]; PList [PFloat 72875 (-3); PFloat 18983 (-3)]; PList [PFloat 72871 (-3); PFloat 18983 (-3)]; PList [PFloat 72871 (-3); PFloat 18978 (-3)]]] |};
        {| props := [("id", PStr "B005"); ("use", PStr "Mixed Use"); ("floors", PInt 10); ("year", PInt 2020)];
           coords := PList [PList [PList [PFloat 72884 (-3); PFloat 19005 (-3)]; PList [PFloat 7289 (-2); PFloat 19005 (-3)]; PList [PFloat 7289 (-2); PFloat 19011 (-3)]; PList [PFloat 72884 (-3); PFloat 19011 (-3)]; PList [PFloat 72884 (-3); PFloat 19005 (-3)]]] |} ] |};
    {| raw_name := "land_use"; raw_type := polygon; raw_color := "#81C784";
       raw_bounds := [PFloat 72825 (-3); PFloat 18972 (-3); PFloat 7289 (-2); PFloat 19005 (-3)];
       raw_fields := ["category"; "area_ha"; "density"];
       raw_features := [
        {| props := [("category", PStr "Residential"); ("area_ha", PFloat 452 (-1)); ("density", PStr "Medium")];
           coords := PList [PList [PList [PFloat 72825 (-3); PFloat 18972 (-3)]; PList [PFloat 72848 (-3); PFloat 18972 (-3)]; PList [PFloat 72848 (-3); PFloat 1899 (-2)]; PList [PFloat 72825 (-3); PFloat 1899 (-2)]; PList [PFloat 72825 (-3); PFloat 18972 (-3)]]] |};
        {| props := [("category", PStr "Commercial"); ("area_ha", PFloat 228 (-1)); ("density", PStr "High")];
           coords := PList [PList [PList [PFloat 72848 (-3); PFloat 18972 (-3)]; PList [PFloat 72868 (-3); PFloat 18972 (-3)]; PList [PFloat 72868 (-3); PFloat 1899 (-2)]; PList [PFloat 72848 (-3); PFloat 1899 (-2)]; PList [PFloat 72848 (-3); PFloat 18972 (-3)]]] |};
        {| props := [("category", PStr "Green Space"); ("area_ha", PFloat 315 (-1)); ("density", PStr "Low")];
           coords := PList [PList [PList [PFloat 72868 (-3); PFloat 18972 (-3)]; PList [PFloat 7289 (-2); PFloat 18972 (-3)]; PList [PFloat 7289 (-2); PFloat 1899 (-2)]; PList [PFloat 72868 (-3); PFloat 1899 (-2)]; PList [PFloat 72868 (-3); PFloat 18972 (-3)]]] |};
        {| props := [("category", PStr "Industrial"); ("area_ha", PFloat 180 (-1)); ("density", PStr "Low")];
           coords := PList [PList [PList [PFloat 72825 (-3); PFloat 1899 (-2)]; PList [PFloat 7289 (-2); PFloat 1899 (-2)]; PList [PFloat 7289 (-2); PFloat 19005 (-3)]; PList [PFloat 72825 (-3); PFloat 19005 (-3)]; PList [PFloat 72825 (-3); PFloat 1899 (-2)]]] |} ] |};
    {| raw_name := "road_network"; raw_type := polyline; raw_color := "#90A4AE";
       raw_bounds := [PFloat 7282 (-2); PFloat 18972 (-3); PFloat 729 (-1); PFloat 1903 (-2)];
       raw_fields := ["name"; "class"; "lanes"];
       raw_features := [
        {| props := [("name", PStr "Main Road"); ("class", PStr "Primary"); ("lanes", PInt 4)];
           coords := PList [PList [PFloat 7282 (-2); PFloat 1899 (-2)]; PList [PFloat 7284 (-2); PFloat 1899 (-2)]; PList [PFloat 7286 (-2); PFloat 18992 (-3)]; PList [PFloat 7288 (-2); PFloat 18992 (-3)]; PList [PFloat 729 (-1); PFloat 18993 (-3)]] |};
        {| props := [("name", PStr "North Avenue"); ("class", PStr "Secondary"); ("lanes", PInt 2)];
           coords := PList [PList [PFloat 72835 (-3); PFloat 18972 (-3)]; PList [PFloat 72835 (-3); PFloat 1899 (-2)]; PList [PFloat 72836 (-3); PFloat 1901 (-2)]; PList [PFloat 72835 (-3); PFloat 1903 (-2)]] |};
        {| props := [("name", PStr "Cross Street"); ("class", PStr "Secondary"); ("lanes", PInt 2)];
           coords := PList [PList [PFloat 7282 (-2); PFloat 190 (-1)]; PList [PFloat 7284 (-2); PFloat 190 (-1)]; PList [PFloat 7286 (-2); PFloat 190 (-1)]; PList [PFloat 7288 (-2); PFloat 18998 (-3)]] |};
        {| props := [("name", PStr "East Road"); ("class", PStr "Collector"); ("lanes", PInt 2)];
           coords := PList [PList [PFloat 7286 (-2); PFloat 18972 (-3)]; PList [PFloat 72862 (-3); PFloat 18985 (-3)]; PList [PFloat 72865 (-3); PFloat 190 (-1)]; PList [PFloat 72868 (-3); PFloat 19015 (-3)]] |};
        {| props := [("name", PStr "West Link"); ("class", PStr "Local"); ("lanes", PInt 1)];
           coords := PList [PList [PFloat 72822 (-3); PFloat 1898 (-2)]; PList [PFloat 72822 (-3); PFloat 18995 (-3)]; PList [PFloat 72825 (-3); PFloat 1901 (-2)]] |} ] |};
    {| raw_name := "water_supply"; raw_type := polyline; raw_color := "#4DD0E1";
       raw_bounds := [PFloat 72825 (-3); PFloat 18975 (-3); PFloat 72878 (-3); PFloat 19012 (-3)];
       raw_fields := ["pipe_id"; "dia_mm"; "material"];
       raw_features := [
        {| props := [("pipe_id", PStr "WS-001"); ("dia_mm", PInt 300); ("material", PStr "DI")];
           coords := PList [PList [PFloat 72825 (-3); PFloat 1898 (-2)]; PList [PFloat 7284 (-2); PFloat 1898 (-2)]; PList [PFloat 72855 (-3); PFloat 18981 (-3)]; PList [PFloat 7287 (-2); PFloat 18982 (-3)]] |};
        {| props := [("pipe_id", PStr "WS-002"); ("dia_mm", PInt 150); ("material", PStr "PVC")];
           coords := PList [PList [PFloat 7284 (-2); PFloat 18975 (-3)]; PList [PFloat 7284 (-2); PFloat 18988 (-3)]; PList [PFloat 7284 (-2); PFloat 190 (-1)]; PList [PFloat 72841 (-3); PFloat 19012 (-3)]] |};
        {| props := [("pipe_id", PStr "WS-003"); ("dia_mm", PInt 200); ("material", PStr "CI")];
           coords := PList [PList [PFloat 72855 (-3); PFloat 18975 (-3)]; PList [PFloat 7286 (-2); PFloat 18988 (-3)]; PList [PFloat 72862 (-3); PFloat 190 (-1)]] |};
        {| props := [("pipe_id", PStr "WS-004"); ("dia_mm", PInt 100); ("material", PStr "PVC")];
           coords := PList [PList [PFloat 7287 (-2); PFloat 18985 (-3)]; PList [PFloat 72875 (-3); PFloat 18995 (-3)]; PList [PFloat 72878 (-3); PFloat 19005 (-3)]] |} ] |};
    {| raw_name := "sewerage_network"; raw_type := polyline; raw_color := "#A1887F";
       raw_bounds := [PFloat 72822 (-3); PFloat 18978 (-3); PFloat 72865 (-3); PFloat 19005 (-3)];
       raw_fields := ["pipe_id"; "dia_mm"; "gradient"];
       raw_features := [
        {| props := [("pipe_id", PStr "SW-001"); ("dia_mm", PInt 450); ("gradient", PStr "1:200")];
           coords := PList [PList [PFloat 72822 (-3); PFloat 18985 (-3)]; PList [PFloat 72838 (-3); PFloat 18985 (-3)]; PList [PFloat 72852 (-3); PFloat 18986 (-3)]; PList [PFloat 72865 (-3); PFloat 18987 (-3)]] |};
        {| props := [("pipe_id", PStr "SW-002"); ("dia_mm", PInt 300); ("gradient", PStr "1:150")];
           coords := PList [PList [PFloat 72838 (-3); PFloat 18978 (-3)]; PList [PFloat 72838 (-3); PFloat 1899 (-2)]; PList [PFloat 72839 (-3); PFloat 19003 (-3)]] |};
        {| props := [("pipe_id", PStr "SW-003"); ("dia_mm", PInt 225); ("gradient", PStr "1:100")];
           coords := PList [PList [PFloat 7285 (-2); PFloat 18978 (-3)]; PList [PFloat 72853 (-3); PFloat 18992 (-3)]; PList [PFloat 72855 (-3); PFloat 19005 (-3)]] |} ] |};
    {| raw_name := "chambers"; raw_type := point; raw_color := "#CE93D8";
       raw_bounds := [PFloat 72835 (-3); PFloat 1898 (-2); PFloat 7288 (-2); PFloat 19008 (-3)];
       raw_fields := ["id"; "type"; "depth_m"; "condition"];
       raw_features := [
        {| props := [("id", PStr "CH-001"); ("type", PStr "Inspection"); ("depth_m", PFloat 25 (-1)); ("condition", PStr "Good")];
           coords := PList [PFloat 72835 (-3); PFloat 18982 (-3)] |};
        {| props := [("id", PStr "CH-002"); ("type", PStr "Junction"); ("depth_m", PFloat 30 (-1)); ("condition", PStr "Fair")];
           coords := PList [PFloat 72845 (-3); PFloat 18988 (-3)] |};
        {| props := [("id", PStr "CH-003"); ("type", PStr "Inspection"); ("depth_m", PFloat 20 (-1)); ("condition", PStr "Good")];
           coords := PList [PFloat 72858 (-3); PFloat 18995 (-3)] |};
        {| props := [("id", PStr "CH-004"); ("type", PStr "Terminal"); ("depth_m", PFloat 40 (-1)); ("condition", PStr "Poor")];
           coords := PList [PFloat 7287 (-2); PFloat 1898 (-2)] |};
        {| props := [("id", PStr "CH-005"); ("type", PStr "Junction"); ("depth_m", PFloat 28 (-1)); ("condition", PStr "Good")];
           coords := PList [PFloat 7288 (-2); PFloat 18998 (-3)] |};
        {| props := [("id", PStr "CH-006"); ("type", PStr "Inspection"); ("depth_m", PFloat 22 (-1)); ("condition", PStr "Good")];
           coords := PList [PFloat 7284 (-2); PFloat 19005 (-3)] |} ] |};
    {| raw_name := "utilities"; raw_type := point; raw_color := "#F06292";
       raw_bounds := [PFloat 72832 (-3); PFloat 18973 (-3); PFloat 72884 (-3); PFloat 19015 (-3)];
       raw_fields := ["id"; "type"; "status"];
       raw_features := [
        {| props := [("id", PStr "HY-001"); ("type", PStr "Hydrant"); ("pressure_bar", PFloat 45 (-1)); ("status", PStr "Active")];
           coords := PList [PFloat 72832 (-3); PFloat 18978 (-3)] |};
        {| props := [("id", PStr "HY-002"); ("type", PStr "Hydrant"); ("pressure_bar", PFloat 42 (-1)); ("status", PStr "Active")];
           coords := PList [PFloat 72848 (-3); PFloat 18985 (-3)] |};
        {| props := [("id", PStr "VL-001"); ("type", PStr "Valve"); ("dia_mm", PInt 150); ("status", PStr "Open")];
           coords := PList [PFloat 72862 (-3); PFloat 18992 (-3)] |};
        {| props := [("id", PStr "VL-002"); ("type", PStr "Valve"); ("dia_mm", PInt 200); ("status", PStr "Closed")];
           coords := PList [PFloat 72875 (-3); PFloat 18975 (-3)] |};
        {| props := [("id", PStr "PS-001"); ("type", PStr "Pump Station"); ("capacity_kl", PInt 500); ("status", PStr "Active")];
           coords := PList [PFloat 72884 (-3); PFloat 19003 (-3)] |};
        {| props := [("id", PStr "MH-001"); ("type", PStr "Manhole"); ("depth_m", PFloat 35 (-1)); ("status", PStr "Active")];
           coords := PList [PFloat 72842 (-3); PFloat 19008 (-3)] |};
        {| props := [("id", PStr "MH-002"); ("type", PStr "Manhole"); ("depth_m", PFloat 28 (-1)); ("status", PStr "Active")];
           coords := PList [PFloat 72856 (-3); PFloat 19015 (-3)] |};
        {| props := [("id", PStr "WT-001"); ("type", PStr "Water Tower"); ("capacity_kl", PInt 500); ("status", PStr "Active")];
           coords := PList [PFloat 72865 (-3); PFloat 18973 (-3)] |} ] |} ].

Definition to_geojson (d : raw_layer) : pyval :=
  let geom_type :=
    match raw_type d with
    | polygon => "Polygon"
    | polyline => "LineString"
    | point => "Point"
    end in
  let features :=
    map (fun f =>
           PDict [ ("type", PStr "Feature");
                   ("properties", PDict (props f));
                   ("geometry", PDict [ ("type", PStr geom_type);
                                        ("coordinates", coords f) ]) ])
        (raw_features d) in
  PDict [ ("type", PStr "FeatureCollection"); ("features", PList features) ].

(** The body of [for d in raw]. *)
Fixpoint samples_loop (w : world) (l : list raw_layer) (s : state) : state :=
  match l with
  | [] => s
  | d :: rest =>
      let st := make_style (raw_type d) (raw_color d) in
      let gj := to_geojson d in
      let (now, s) := time_time w s in
      let rec := {| name := raw_name d; type := raw_type d; geojson := gj;
                    bounds := raw_bounds d; count := length (raw_features d);
                    fields := raw_fields d; style := Some st;
                    file_path := None; loaded_at := now |} in
      samples_loop w rest (with_cache (PyDict.set (raw_name d) rec (layer_cache s)) s)
  end.

Definition _load_samples (w : world) (s : state) : state :=
  let s := emit LockAcquire s in
  let s := samples_loop w raw s in
  let s := emit LockRelease s in
  emit (PrintInfo (length raw)) s.

Definition refresh_all (w : world) (s : state) : state :=
  let l := shps w in
  let s := emit LockAcquire s in
  let s := with_cache (PyDict.clear (layer_cache s)) s in
  let s := refresh_loop w 0 l s in
  let s := emit LockRelease s in
  if PyDict.is_empty (layer_cache s) then _load_samples w s else s.

(** ** The change watcher *)

Record FileSystemEvent := {
  is_directory : bool;
  src_path : string
}.

(** A [threading.Timer] is named by a number.  [started] holds the timers
    that were started and have neither fired nor been cancelled, each with
    its delay and the argument it will pass to [_reload]. *)
Record SHPHandler := {
  _timers : gmap string nat;
  started : gmap nat (pyval * string);
  next_timer : nat
}.

(** [SHPHandler.__init__] *)
Definition SHPHandler_init : SHPHandler :=
  {| _timers := ∅; started := ∅; next_timer := 0 |}.

Definition default_delay : pyval := PFloat 12 (-1).

Definition _debounce (h : SHPHandler) (path : string) (delay : pyval) : SHPHandler :=
  if PyStr.endswith path ".shp" then
    let running :=
      match _timers h !! path with
      | Some t => delete t (started h)        (* t.cancel() *)
      | None => started h
      end in
    let t := next_timer h in
    {| _timers := <[path := t]> (_timers h);
       started := <[t := (delay, path)]> running;   (* t.start() *)
       next_timer := S t |}
  else h.

Definition _reload (w : world) (path : string) (s : state) : state :=
  let nm := PyStr.stem path in
  let (d, s) := load_shp w path s in
  let s := emit LockAcquire s in
  let s :=
    match d with
    | Some d =>
        let d := set_style d
                   (make_style (type d)
                      (COLORS_at (PyDict.len (layer_cache s) mod length COLORS))) in
        let s := with_cache (PyDict.set nm d (layer_cache s)) s in
        emit (PrintWatch nm) s
    | None => with_cache (PyDict.pop nm (layer_cache s)) s
    end in
  emit LockRelease s.

Definition on_created (e : FileSystemEvent) (hs : SHPHandler * state) : SHPHandler * state :=
  if negb (is_directory e) then (_debounce (fst hs) (src_path e) default_delay, snd hs)
  else hs.

Definition on_modified (e : FileSystemEvent) (hs : SHPHandler * state) : SHPHandler * state :=
  if negb (is_directory e) then (_debounce (fst hs) (src_path e) default_delay, snd hs)
  else hs.

Definition on_deleted (e : FileSystemEvent) (hs : SHPHandler * state) : SHPHandler * state :=
  if negb (is_directory e) && PyStr.endswith (src_path e) ".shp" then
    let s := emit LockAcquire (snd hs) in
    let s := with_cache (PyDict.pop (PyStr.stem (src_path e)) (layer_cache s)) s in
    (fst hs, emit LockRelease s)
  else hs.

(** The timer [t] expires: if it is still started it runs
    [_reload(path)]; a cancelled or already fired timer does nothing. *)
Definition timer_fires (w : world) (t : nat) (hs : SHPHandler * state) : SHPHandler * state :=
  match started (fst hs) !! t with
  | Some (_, path) =>
      ({| _timers := _timers (fst hs); started := delete t (started (fst hs));
          next_timer := next_timer (fst hs) |},
       _reload w path (snd hs))
  | None => hs
  end.

(** ** The query surface *)

Record list_item := {
  li_name : string;
  li_type : ltype;
  li_count : nat;
  li_fields : list string;
  li_bounds : list pyval;
  li_style : option (list (string * pyval))
}.

Definition list_item_of (v : layer) : list_item :=
  {| li_name := name v; li_type := type v; li_count := count v;
     li_fields := fields v; li_bounds := bounds v; li_style := style v |}.

(** [list_layers]: the listing and its [total]. *)
Definition list_layers (s : state) : (list list_item * nat) * state :=
  let s := emit LockAcquire s in
  let out := list_item_of <$> PyDict.values (layer_cache s) in
  let s := emit LockRelease s in
  ((out, length out), s).

(** [get_layer]: [None] is the 404 answer. *)
Definition get_layer (nm : string) (s : state) : option layer * state :=
  let s := emit LockAcquire s in
  let l := PyDict.get nm (layer_cache s) in
  (l, emit LockRelease s).

(** [health]: the [layers] field. *)
Definition health (s : state) : nat := PyDict.len (layer_cache s).

(** ** The three mutations of the cache

    [Upsert] is [layer_cache[d["name"]] = d] ([refresh_all], and [_reload]
    whose key is the stem the record was named after), [Remove] is
    [layer_cache.pop(name, None)] ([_reload], [on_deleted]), and
    [ReplaceAll] is the [clear()] of [refresh_all] followed by its
    assignments in enumeration order. *)
Inductive cache_op :=
| Upsert (d : layer)
| Remove (nm : string)
| ReplaceAll (ds : list layer).

Definition apply_op (c : list (string * layer)) (o : cache_op) : list (string * layer) :=
  match o with
  | Upsert d => PyDict.set (name d) d c
  | Remove nm => PyDict.pop nm c
  | ReplaceAll ds => fold_left (fun c d => PyDict.set (name d) d c) ds (PyDict.clear c)
  end.

Definition run_ops (ops : list cache_op) : list (string * layer) :=
  fold_left apply_op ops [].

(** ** The assignments the writers make *)

(** [layer_cache[d["name"]] = d] *)
Definition assign (c : list (string * layer)) (d : layer) : list (string * layer) :=
  PyDict.set (name d) d c.

(** The records the loop of [refresh_all] assigns to [layer_cache], in
    the order of the assignments: the loop of [refresh_loop], keeping the
    assigned record instead of the cache. *)
Fixpoint loop_records (w : world) (i : nat) (l : list string) (s : state) : list layer :=
  match l with
  | [] => []
  | shp :: rest =>
      let (d, s) := load_shp w shp s in
      match d with
      | Some d =>
          let d := set_style d (make_style (type d) (COLORS_at (i mod length COLORS))) in
          let s := with_cache (PyDict.set (name d) d (layer_cache s)) s in
          d :: loop_records w (S i) rest (emit (PrintLoad (name d) (type d) (count d)) s)
      | None => loop_records w (S i) rest s
      end
  end.

(** The records the loop of [_load_samples] assigns, in order. *)
Fixpoint sample_records (w : world) (l : list raw_layer) (s : state) : list layer :=
  match l with
  | [] => []
  | d :: rest =>
      let st := make_style (raw_type d) (raw_color d) in
      let gj := to_geojson d in
      let (now, s) := time_time w s in
      let rec := {| name := raw_name d; type := raw_type d; geojson := gj;
                    bounds := raw_bounds d; count := length (raw_features d);
                    fields := raw_fields d; style := Some st;
                    file_path := None; loaded_at := now |} in
      rec :: sample_records w rest
               (with_cache (PyDict.set (raw_name d) rec (layer_cache s)) s)
  end.

(** The assignments of one [refresh_all] started in [s]: those of its
    loop and, for the case that they leave the cache empty, those of
    [_load_samples]. *)
Definition refresh_assignments (w : world) (s : state) : list layer :=
  loop_records w 0 (shps w)
    (with_cache (PyDict.clear (layer_cache (emit LockAcquire s))) (emit LockAcquire s)).

Definition sample_assignments (w : world) (s : state) : list layer :=
  sample_records w raw
    (emit LockAcquire
       (emit LockRelease
          (refresh_loop w 0 (shps w)
             (with_cache (PyDict.clear (layer_cache (emit LockAcquire s)))
                (emit LockAcquire s))))).

(** [refresh_all], [_reload] and [on_deleted] as calls on the cache. *)
Definition refresh_op (w : world) (s : state) : cache_op :=
  ReplaceAll
    match refresh_assignments w s with
    | [] => sample_assignments w s
    | ds => ds
    end.

Definition reload_op (w : world) (path : string) (s : state) : cache_op :=
  match (load_shp w path s).1 with
  | Some d =>
      Upsert (set_style d (make_style (type d)
                (COLORS_at (PyDict.len (layer_cache s) mod length COLORS))))
  | None => Remove (PyStr.stem path)
  end.

Definition deleted_ops (e : FileSystemEvent) : list cache_op :=
  if negb (is_directory e) && PyStr.endswith (src_path e) ".shp"
  then [Remove (PyStr.stem (src_path e))]
  else [].

(** What the path [q], enumerated at position [j], contributes to a
    refresh: nothing when it does not load, else its path and the style of
    its kind in the palette colour of the position. *)
Definition styled_load (w : world) (j : nat) (q : string)
    : option (option string * option (list (string * pyval))) :=
  if HAS_GPD w then
    match open_frame w q with
    | Some gdf =>
        Some (Some q,
              Some (make_style (detect_type (PyStr.stem q) (Some gdf))
                      (COLORS_at (j mod length COLORS))))
    | None => None
    end
  else None.

(** ** Specification-level notions used by the theorems *)

(** The entries implied by a sequence of cache calls, as a finite map. *)
Definition implied_op (m : gmap string layer) (o : cache_op) : gmap string layer :=
  match o with
  | Upsert d => <[name d := d]> m
  | Remove nm => delete nm m
  | ReplaceAll ds => fold_left (fun m d => <[name d := d]> m) ds ∅
  end.

Definition implied (ops : list cache_op) : gmap string layer :=
  fold_left implied_op ops ∅.

(** The dictionary [c] represents the finite map [m]: no key twice, the
    same lookups, and every record filed under its own name. *)
Definition represents (c : list (string * layer)) (m : gmap string layer) : Prop :=
  PyDict.wf c /\ list_to_map c = m /\ Forall (fun kv => name kv.2 = kv.1) c.

(** The keyword [k] occurs in the name [nm] as a substring, letter case
    ignored. *)
Definition occurs_ci (k nm : string) : Prop :=
  exists a b, PyStr.lower nm = a +:+ PyStr.lower k +:+ b.

(** No keyword of the table occurs in the name. *)
Definition no_match (table : list (string * ltype)) (nm : string) : Prop :=
  Forall (fun kv => ~ occurs_ci kv.1 nm) table.

(** The first entry of the table, in declaration order, whose keyword
    occurs in the name maps to [v]. *)
Definition first_match (table : list (string * ltype)) (nm : string) (v : ltype) : Prop :=
  exists pre k post,
    table = pre ++ (k, v) :: post /\ occurs_ci k nm /\ no_match pre nm.

(** The six geometry types of [GEOM_MAP]. *)
Definition recognized : list string :=
  [ "Point"; "MultiPoint"; "LineString"; "MultiLineString"; "Polygon"; "MultiPolygon" ].

(** Geometry-kind inference as the specification words it: keywords
    first; else the geometry type of the first feature; else polygon. *)
Inductive infers (nm : string) (gdf : option GeoDataFrame) : ltype -> Prop :=
| infers_keyword v :
    first_match NAME_TYPE nm v -> infers nm gdf v
| infers_geometry g t0 rest :
    no_match NAME_TYPE nm -> gdf = Some g -> geom_type g = t0 :: rest ->
    infers nm gdf (GEOM_MAP_get t0 polygon)
| infers_no_feature :
    no_match NAME_TYPE nm ->
    (gdf = None \/ exists g, gdf = Some g /\ geom_type g = []) ->
    infers nm gdf polygon.

(** A record with its load time blanked: everything a refresh decides
    about a layer except the clock reading. *)
Definition untimed (l : layer) : layer :=
  {| name := name l; type := type l; geojson := geojson l; bounds := bounds l;
     count := count l; fields := fields l; style := style l;
     file_path := file_path l; loaded_at := 0 |}.

(** The cache content, in order, load times blanked. *)
Definition content (c : list (string * layer)) : list (string * layer) :=
  (fun kv => (kv.1, untimed kv.2)) <$> c.

(** The loader reports failure for [path]: the parsing library is absent
    or one of its calls raises. *)
Definition load_fails (w : world) (path : string) : Prop :=
  HAS_GPD w = false \/ open_frame w path = None.

(** The cache entry [kv] is the sample built from the definition [d]. *)
Definition sample_entry (kv : string * layer) (d : raw_layer) : Prop :=
  kv.1 = raw_name d /\
  untimed kv.2 =
    {| name := raw_name d; type := raw_type d; geojson := to_geojson d;
       bounds := raw_bounds d; count := length (raw_features d);
       fields := raw_fields d;
       style := Some (make_style (raw_type d) (raw_color d));
       file_path := None; loaded_at := 0 |}.

(** Number of [gpd.read_file(path)] calls in a trace. *)
Fixpoint count_reads (path : string) (tr : list event) : nat :=
  match tr with
  | [] => 0
  | ReadFile q :: r => (if String.eqb q path then 1 else 0) + count_reads path r
  | _ :: r => count_reads path r
  end.

(** Whether some file is read while the cache lock is held, [held]
    telling whether it is held when the trace starts. *)
Fixpoint reads_under_lock (held : bool) (tr : list event) : bool :=
  match tr with
  | [] => false
  | LockAcquire :: r => reads_under_lock true r
  | LockRelease :: r => reads_under_lock false r
  | ReadFile _ :: r => held || reads_under_lock held r
  | _ :: r => reads_under_lock held r
  end.

(** The globals as the module leaves them before [startup()]. *)
Definition init_state : state :=
  {| layer_cache := []; trace := []; ticks := 0 |}.

(** ** Concrete worlds for the examples *)

(** A parsed file of two point features in EPSG:4326. *)
Definition two_points : GeoDataFrame :=
  {| crs := Some 4326%Z;
     columns := [("id", false); ("geometry", false)];
     geom_type := [Some "Point"; Some "Point"];
     to_json := PDict [("type", PStr "FeatureCollection")];
     total_bounds := [PFloat 7282 (-2); PFloat 1897 (-2); PFloat 7293 (-2); PFloat 1908 (-2)] |}.

(** One readable source file directly under the data directory. *)
Definition one_file_world : world :=
  {| DATA_DIR := "/srv/backend/data"; tree := [File "roads.shp"];
     magic_dirs := fun _ => []; HAS_GPD := true;
     read_file := fun _ => Some two_points; to_crs := fun g => Some g;
     clock := fun n => Z.of_nat n |}.

(** One source file directly under the data directory that cannot be
    parsed. *)
Definition corrupt_file_world : world :=
  {| DATA_DIR := "/srv/backend/data"; tree := [File "parcels.shp"];
     magic_dirs := fun _ => []; HAS_GPD := true;
     read_file := fun _ => None; to_crs := fun g => Some g;
     clock := fun n => Z.of_nat n |}.

(** An empty data directory. *)
Definition empty_world : world :=
  {| DATA_DIR := "/srv/backend/data"; tree := [];
     magic_dirs := fun _ => []; HAS_GPD := true;
     read_file := fun _ => None; to_crs := fun g => Some g;
     clock := fun n => Z.of_nat n |}.

(** A handler whose only timer, number 0, was armed by a change of
    [roads.shp]. *)
Definition armed_handler : SHPHandler :=
  _debounce SHPHandler_init "/srv/backend/data/roads.shp" default_delay.

(** The deletion of [roads.shp]. *)
Definition roads_deleted : FileSystemEvent :=
  {| is_directory := false; src_path := "/srv/backend/data/roads.shp" |}.

(** ** The running system *)

(** [do_refresh]: a full refresh, answered with the number of layers. *)
Definition do_refresh (w : world) (s : state) : nat * state :=
  let s := refresh_all w s in
  (PyDict.len (layer_cache s), s).

(** What can happen to the process once its globals exist: a request on
    one of the routes, a callback of the observer, or the expiry of a
    timer. *)
Inductive action :=
| DoRefresh
| ListLayers
| GetLayer (nm : string)
| Created (e : FileSystemEvent)
| Modified (e : FileSystemEvent)
| Deleted (e : FileSystemEvent)
| TimerFires (t : nat).

(** One action, in the world as it is when the action runs. *)
Definition perform (w : world) (a : action) (hs : SHPHandler * state) : SHPHandler * state :=
  match a with
  | DoRefresh => (hs.1, (do_refresh w hs.2).2)
  | ListLayers => (hs.1, (list_layers hs.2).2)
  | GetLayer nm => (hs.1, (get_layer nm hs.2).2)
  | Created e => on_created e hs
  | Modified e => on_modified e hs
  | Deleted e => on_deleted e hs
  | TimerFires t => timer_fires w t hs
  end.

(** The states the process can be in; the files may change between two
    actions, so every step has its own world. *)
Inductive reachable : SHPHandler * state -> Prop :=
| reachable_init : reachable (SHPHandler_init, init_state)
| reachable_step w a hs : reachable hs -> reachable (perform w a hs).

(** A cache entry is filed under the name of its record and carries the
    style of its kind in a colour of the palette. *)
Definition layer_ok (kv : string * layer) : Prop :=
  name kv.2 = kv.1 /\
  exists c, c ∈ COLORS /\ style kv.2 = Some (make_style (type kv.2) c).

Definition cache_ok (c : list (string * layer)) : Prop :=
  PyDict.wf c /\ Forall layer_ok c.

(** Every started timer is the one [_timers] records for its path, no
    timer is recorded for two paths, and timer numbers are allocated in
    increasing order. *)
Definition timers_ok (h : SHPHandler) : Prop :=
  (forall t d p, started h !! t = Some (d, p) -> _timers h !! p = Some t) /\
  (forall p1 p2 t, _timers h !! p1 = Some t -> _timers h !! p2 = Some t -> p1 = p2) /\
  (forall p t, _timers h !! p = Some t -> t < next_timer h).

(** The state of the lock after a trace, [None] when the trace takes a
    lock that is held or releases one that is not. *)
Fixpoint lock_after (held : bool) (tr : list event) : option bool :=
  match tr with
  | [] => Some held
  | LockAcquire :: r => if held then None else lock_after true r
  | LockRelease :: r => if held then lock_after false r else None
  | _ :: r => lock_after held r
  end.

(** A change of [roads.shp], and a change of a file that is no source. *)
Definition roads_changed : FileSystemEvent :=
  {| is_directory := false; src_path := "/srv/backend/data/roads.shp" |}.

Definition readme_changed : FileSystemEvent :=
  {| is_directory := false; src_path := "/srv/backend/data/README.txt" |}.

(** The process after a refresh of the one-file directory and one change
    of its file. *)
Definition demo_state : SHPHandler * state :=
  perform one_file_world (Modified roads_changed)
    (perform one_file_world DoRefresh (SHPHandler_init, init_state)).

(** The process after a second change of the same file. *)
Definition rearmed_state : SHPHandler * state :=
  perform one_file_world (Modified roads_changed) demo_state.

(** The directory [ch], at the relative path [rel], lies below the
    directory listed by [listing] and is reached through directories whose
    names are not hidden. *)
Inductive below (listing : list node) : string -> list node -> Prop :=
| below_child x ch :
    In (Dir x ch) listing -> Glob.ishidden x = false -> below listing x ch
| below_deeper x ch rel l' :
    In (Dir x ch) listing -> Glob.ishidden x = false ->
    below ch rel l' -> below listing (PyStr.path_join x rel) l'.

(** The geometry types of the features of a GeoJSON feature collection,
    [None] when the value has not that shape. *)
Definition feature_geometry_type (f : pyval) : option string :=
  match f with
  | PDict fd =>
      match PyDict.get "geometry" fd with
      | Some (PDict g) =>
          match PyDict.get "type" g with
          | Some (PStr t) => Some t
          | _ => None
          end
      | _ => None
      end
  | _ => None
  end.

Definition geojson_geometry_types (gj : pyval) : option (list string) :=
  match gj with
  | PDict d =>
      match PyDict.get "type" d, PyDict.get "features" d with
      | Some (PStr "FeatureCollection"), Some (PList fs) => mapM feature_geometry_type fs
      | _, _ => None
      end
  | _ => None
  end.

(** * Facts about dictionaries *)

Module PyDictFacts.
Section Facts.
Context {V : Type}.
Implicit Types (d : list (string * V)) (k : string) (v : V).

Lemma get_None d k : PyDict.get k d = None <-> k ∉ PyDict.keys d.
Proof.
  unfold PyDict.keys. induction d as [|[k' v'] r IH]; simpl.
  - split; [intros _; apply not_elem_of_nil | done].
  - rewrite not_elem_of_cons. destruct (String.eqb_spec k' k) as [->|Hne].
    + naive_solver.
    + rewrite IH. naive_solver.
Qed.

Lemma get_to_map d k : (list_to_map d : gmap string V) !! k = PyDict.get k d.
Proof.
  induction d as [|[k' v'] r IH]; simpl; [apply lookup_empty|].
  destruct (String.eqb_spec k' k) as [->|Hne].
  - apply lookup_insert_eq.
  - rewrite lookup_insert_ne by done. apply IH.
Qed.

Lemma get_set d k v k' :
  PyDict.get k' (PyDict.set k v d) = if decide (k = k') then Some v else PyDict.get k' d.
Proof.
  induction d as [|[k0 v0] r IH]; simpl.
  - destruct (String.eqb_spec k k'); case_decide; congruence.
  - destruct (String.eqb_spec k0 k) as [->|Hne]; simpl.
    + destruct (String.eqb_spec k k'); case_decide; congruence.
    + rewrite IH. destruct (String.eqb_spec k0 k'); case_decide; congruence.
Qed.

Lemma keys_set d k v k' :
  k' ∈ PyDict.keys (PyDict.set k v d) <-> k' = k \/ k' ∈ PyDict.keys d.
Proof.
  unfold PyDict.keys. induction d as [|[k0 v0] r IH]; simpl.
  - rewrite list_elem_of_singleton. set_solver.
  - destruct (String.eqb_spec k0 k) as [->|Hne]; simpl.
    + set_solver.
    + rewrite !elem_of_cons, IH. tauto.
Qed.

Lemma wf_set d k v : PyDict.wf d -> PyDict.wf (PyDict.set k v d).
Proof.
  unfold PyDict.wf. induction d as [|[k0 v0] r IH]; simpl; intros Hwf.
  - apply NoDup_singleton.
  - apply NoDup_cons in Hwf as [Hnin Hr].
    destruct (String.eqb_spec k0 k) as [->|Hne]; simpl.
    + apply NoDup_cons; done.
    + apply NoDup_cons; split; [|by apply IH].
      intros [?|?]%keys_set; done.
Qed.

Lemma len_set d k v :
  PyDict.len (PyDict.set k v d) =
  if decide (k ∈ PyDict.keys d) then PyDict.len d else S (PyDict.len d).
Proof.
  unfold PyDict.len, PyDict.keys. induction d as [|[k0 v0] r IH].
  - rewrite decide_False by apply not_elem_of_nil. done.
  - cbn [PyDict.set]. destruct (String.eqb_spec k0 k) as [->|Hne].
    + rewrite decide_True by (rewrite fmap_cons; apply list_elem_of_here). done.
    + cbn [length]. rewrite IH, fmap_cons.
      destruct (decide (k ∈ r.*1)) as [Hin|Hnin].
      * rewrite decide_True by (by apply list_elem_of_further). done.
      * rewrite decide_False; [done|]. rewrite not_elem_of_cons. done.
Qed.

Lemma keys_pop d k k' :
  k' ∈ PyDict.keys (PyDict.pop k d) -> k' ∈ PyDict.keys d.
Proof.
  unfold PyDict.keys. induction d as [|[k0 v0] r IH]; simpl; [done|].
  destruct (String.eqb_spec k0 k); simpl; set_solver.
Qed.

Lemma wf_pop d k : PyDict.wf d -> PyDict.wf (PyDict.pop k d).
Proof.
  unfold PyDict.wf. induction d as [|[k0 v0] r IH]; simpl; intros Hwf; [done|].
  apply NoDup_cons in Hwf as [Hnin Hr].
  destruct (String.eqb_spec k0 k); simpl; [done|].
  apply NoDup_cons; split; [|by apply IH].
  intros ?%keys_pop; done.
Qed.

Lemma get_pop d k k' :
  PyDict.wf d ->
  PyDict.get k' (PyDict.pop k d) = if decide (k = k') then None else PyDict.get k' d.
Proof.
  unfold PyDict.wf. induction d as [|[k0 v0] r IH]; simpl; intros Hwf.
  - by case_decide.
  - apply NoDup_cons in Hwf as [Hnin Hr].
    destruct (String.eqb_spec k0 k) as [->|Hne]; simpl.
    + case_decide as Hk.
      * subst. by apply get_None.
      * destruct (String.eqb_spec k k'); congruence.
    + rewrite IH by done. destruct (String.eqb_spec k0 k'); case_decide; congruence.
Qed.

Lemma to_map_set d k v :
  (list_to_map (PyDict.set k v d) : gmap string V) = <[k := v]> (list_to_map d).
Proof.
  apply map_eq; intros k'. rewrite get_to_map, get_set, lookup_insert.
  case_decide; [done | by rewrite get_to_map].
Qed.

Lemma to_map_pop d k :
  PyDict.wf d ->
  (list_to_map (PyDict.pop k d) : gmap string V) = delete k (list_to_map d).
Proof.
  intros Hwf. apply map_eq; intros k'.
  rewrite get_to_map, get_pop, lookup_delete by done.
  case_decide; [done | by rewrite get_to_map].
Qed.

Lemma Forall_set (P : string * V -> Prop) d k v :
  Forall P d -> P (k, v) -> Forall P (PyDict.set k v d).
Proof.
  intros Hd Hkv. induction Hd as [|[k0 v0] r H0 Hr IH]; simpl.
  - by constructor.
  - destruct (String.eqb_spec k0 k) as [->|Hne]; by constructor.
Qed.

Lemma Forall_pop (P : string * V -> Prop) d k :
  Forall P d -> Forall P (PyDict.pop k d).
Proof.
  intros Hd. induction Hd as [|[k0 v0] r H0 Hr IH]; simpl; [done|].
  destruct (String.eqb k0 k); [done | by constructor].
Qed.

Lemma set_fresh d k v :
  k ∉ PyDict.keys d -> PyDict.set k v d = d ++ [(k, v)].
Proof.
  unfold PyDict.keys. induction d as [|[k0 v0] r IH]; simpl; intros Hk; [done|].
  apply not_elem_of_cons in Hk as [Hne Hk].
  destruct (String.eqb_spec k0 k); [congruence|]. by rewrite IH.
Qed.

Lemma is_empty_nil d : PyDict.is_empty d = true <-> d = [].
Proof. destruct d; simpl; split; congruence. Qed.

Lemma set_not_nil d k v : PyDict.set k v d <> [].
Proof. destruct d as [|[k0 v0] r]; simpl; [done|]. by destruct (String.eqb k0 k). Qed.
End Facts.
End PyDictFacts.

(** * The cache under sequences of mutations *)

Section CacheOps.

Lemma represents_empty : represents [] ∅.
Proof. split; [apply NoDup_nil_2 | split; [done | constructor]]. Qed.

Lemma represents_upsert c m d :
  represents c m -> represents (PyDict.set (name d) d c) (<[name d := d]> m).
Proof.
  intros (Hwf & <- & Hnm). split; [by apply PyDictFacts.wf_set|].
  split; [apply PyDictFacts.to_map_set | by apply PyDictFacts.Forall_set].
Qed.

Lemma represents_remove c m nm :
  represents c m -> represents (PyDict.pop nm c) (delete nm m).
Proof.
  intros (Hwf & <- & Hnm). split; [by apply PyDictFacts.wf_pop|].
  split; [by apply PyDictFacts.to_map_pop | by apply PyDictFacts.Forall_pop].
Qed.

Lemma represents_assignments ds : forall c m,
  represents c m ->
  represents (fold_left (fun c d => PyDict.set (name d) d c) ds c)
             (fold_left (fun m d => <[name d := d]> m) ds m).
Proof.
  induction ds as [|d ds IH]; intros c m H; simpl; [done|].
  by apply IH, represents_upsert.
Qed.

Lemma represents_apply c m o :
  represents c m -> represents (apply_op c o) (implied_op m o).
Proof.
  intros H. destruct o as [d|nm|ds]; simpl.
  - by apply represents_upsert.
  - by apply represents_remove.
  - apply represents_assignments, represents_empty.
Qed.

Lemma represents_fold ops : forall c m,
  represents c m -> represents (fold_left apply_op ops c) (fold_left implied_op ops m).
Proof.
  induction ops as [|o ops IH]; intros c m H; simpl; [done|].
  by apply IH, represents_apply.
Qed.

Lemma represents_run ops : represents (run_ops ops) (implied ops).
Proof. apply represents_fold, represents_empty. Qed.

Lemma represents_values c m :
  represents c m -> PyDict.values c ≡ₚ (map_to_list m).*2.
Proof.
  intros (Hwf & <- & _). unfold PyDict.values.
  by rewrite (map_to_list_to_map c Hwf).
Qed.

End CacheOps.

(** * Geometry-kind inference *)

Module PyStrFacts.

Lemma app_nil s : "" +:+ s = s.
Proof. reflexivity. Qed.

Lemma app_cons c k s : String c k +:+ s = String c (k +:+ s).
Proof. reflexivity. Qed.

Lemma prefix_spec k s : String.prefix k s = true <-> exists b, s = k +:+ b.
Proof.
  revert s. induction k as [|c k IH]; intros s; simpl.
  - destruct s as [|c' s]; (split; [intros _; by eexists | done]).
  - setoid_rewrite app_cons. destruct s as [|c' s]; simpl.
    + split; [done | intros [b Hb]; done].
    + destruct (ascii_dec c c') as [->|Hne].
      * rewrite IH. split; intros [b Hb]; exists b; congruence.
      * split; [done | intros [b Hb]; congruence].
Qed.

Lemma contains_spec k s :
  PyStr.contains k s = true <-> exists a b, s = a +:+ k +:+ b.
Proof.
  induction s as [|c s IH]; cbn [PyStr.contains].
  - rewrite orb_false_r, prefix_spec. split.
    + intros [b Hb]. by exists "", b.
    + intros (a & b & Hab). destruct a; [by exists b | done].
  - rewrite orb_true_iff, prefix_spec, IH. split.
    + intros [[b Hb]|(a & b & Hab)].
      * by exists "", b.
      * exists (String c a), b. by rewrite app_cons, Hab.
    + intros (a & b & Hab). destruct a as [|c' a].
      * left. by exists b.
      * right. exists a, b. rewrite app_cons in Hab. congruence.
Qed.

Lemma app_nil_r s : s +:+ "" = s.
Proof. induction s as [|c s IH]; [done|]. by rewrite app_cons, IH. Qed.

Lemma app_assoc a b c : (a +:+ b) +:+ c = a +:+ b +:+ c.
Proof. induction a as [|x a IH]; [done|]. by rewrite !app_cons, IH. Qed.

Lemma endswith_refl s : PyStr.endswith s s = true.
Proof. destruct s; simpl; [done|]. by rewrite Ascii.eqb_refl, String.eqb_refl. Qed.

Lemma endswith_app a b : PyStr.endswith (a +:+ b) b = true.
Proof.
  induction a as [|x a IH]; [apply endswith_refl|].
  rewrite app_cons. cbn [PyStr.endswith]. rewrite IH. apply orb_true_r.
Qed.

Lemma path_join_empty d nm :
  PyStr.path_join (PyStr.path_join d "") nm = PyStr.path_join d nm.
Proof.
  unfold PyStr.path_join at 2 3. unfold PyStr.startswith.
  destruct (String.prefix "/" nm) eqn:Hnm.
  { unfold PyStr.path_join, PyStr.startswith. by rewrite Hnm. }
  change (String.prefix "/" "") with false.
  destruct (String.eqb_spec d "") as [->|Hd]; simpl.
  - unfold PyStr.path_join, PyStr.startswith. by rewrite Hnm.
  - destruct (PyStr.endswith d "/") eqn:He.
    + rewrite app_nil_r. unfold PyStr.path_join, PyStr.startswith.
      rewrite Hnm, He, orb_true_r. done.
    + change ("/" +:+ "") with "/". unfold PyStr.path_join, PyStr.startswith.
      rewrite Hnm, endswith_app, orb_true_r. apply app_assoc.
Qed.

Lemma NAME_TYPE_lowercase : Forall (fun kv => PyStr.lower kv.1 = kv.1) NAME_TYPE.
Proof. repeat constructor. Qed.

End PyStrFacts.

Section DetectType.

Lemma occurs_ci_contains k nm :
  PyStr.lower k = k -> occurs_ci k nm <-> PyStr.contains k (PyStr.lower nm) = true.
Proof.
  intros Hk. unfold occurs_ci. rewrite Hk. symmetry. apply PyStrFacts.contains_spec.
Qed.

Lemma name_type_loop_None table nm :
  Forall (fun kv => PyStr.lower kv.1 = kv.1) table ->
  name_type_loop table (PyStr.lower nm) = None <-> no_match table nm.
Proof.
  unfold no_match. induction 1 as [|[k v] rest Hk Hrest IH]; simpl.
  - split; [constructor | done].
  - rewrite Forall_cons. simpl in *. rewrite (occurs_ci_contains k nm Hk).
    destruct (PyStr.contains k (PyStr.lower nm)).
    + split; [done | intros [? _]; done].
    + rewrite IH. split; [done | by intros [_ ?]].
Qed.

Lemma name_type_loop_Some table nm v :
  Forall (fun kv => PyStr.lower kv.1 = kv.1) table ->
  name_type_loop table (PyStr.lower nm) = Some v <-> first_match table nm v.
Proof.
  unfold first_match, no_match. induction 1 as [|[k v'] rest Hk Hrest IH]; simpl in *.
  - split; [done | intros (pre & k & post & Heq & _)]. by destruct pre.
  - destruct (PyStr.contains k (PyStr.lower nm)) eqn:Hc.
    + split.
      * intros [= ->]. exists [], k, rest. split; [done|].
        split; [by apply occurs_ci_contains | constructor].
      * intros (pre & k0 & post & Heq & Hocc & Hpre).
        destruct pre as [|[k1 v1] pre]; simpl in Heq.
        -- congruence.
        -- injection Heq as -> -> ->. apply Forall_cons in Hpre as [Hno _].
           exfalso. apply Hno. by apply occurs_ci_contains.
    + rewrite IH. split.
      * intros (pre & k0 & post & -> & Hocc & Hpre).
        exists ((k, v') :: pre), k0, post. split; [done|]. split; [done|].
        constructor; [|done]. simpl. rewrite occurs_ci_contains by done. congruence.
      * intros (pre & k0 & post & Heq & Hocc & Hpre).
        destruct pre as [|[k1 v1] pre]; simpl in Heq.
        -- injection Heq as -> -> ->.
           apply occurs_ci_contains in Hocc; congruence.
        -- injection Heq as -> -> ->. apply Forall_cons in Hpre as [_ Hpre].
           by exists pre, k0, post.
Qed.

(** C5.  [detect_type] computes exactly the kind the specification's
    three rules give: the kind of the first table entry, in declaration
    order, whose keyword occurs case-insensitively in the name, whatever
    the geometry is; failing any keyword, the kind of the first feature's
    geometry type; and polygon when there is no feature to inspect. *)
Theorem detect_type_infers (nm : string) (gdf : option GeoDataFrame) (v : ltype) :
  infers nm gdf v <-> detect_type nm gdf = v.
Proof.
  unfold detect_type. split.
  - intros [v' Hfm | g t0 rest Hno -> Hg | Hno Hg].
    + apply name_type_loop_Some in Hfm; [|apply PyStrFacts.NAME_TYPE_lowercase].
      by rewrite Hfm.
    + apply name_type_loop_None in Hno; [|apply PyStrFacts.NAME_TYPE_lowercase].
      by rewrite Hno, Hg.
    + apply name_type_loop_None in Hno; [|apply PyStrFacts.NAME_TYPE_lowercase].
      rewrite Hno. destruct Hg as [->|(g & -> & ->)]; done.
  - destruct (name_type_loop NAME_TYPE (PyStr.lower nm)) as [v'|] eqn:Hloop.
    + intros <-. apply infers_keyword.
      by apply name_type_loop_Some; [apply PyStrFacts.NAME_TYPE_lowercase|].
    + apply name_type_loop_None in Hloop; [|apply PyStrFacts.NAME_TYPE_lowercase].
      destruct gdf as [g|]; [destruct (geom_type g) as [|t0 rest] eqn:Hg|]; intros <-.
      * apply infers_no_feature; [done | right; by exists g].
      * by eapply infers_geometry.
      * apply infers_no_feature; [done | by left].
Qed.

(** The example of the specification: a file named [building_outline]
    holding points is a polygon layer. *)
Example building_outline_polygon :
  detect_type "building_outline"
    (Some {| crs := Some 4326%Z; columns := [("geometry", false)];
             geom_type := [Some "Point"; Some "Point"];
             to_json := PNone; total_bounds := [] |}) = polygon.
Proof. reflexivity. Qed.

Lemma GEOM_MAP_get_unrecognized t :
  (forall s, t = Some s -> s ∉ recognized) -> GEOM_MAP_get t polygon = polygon.
Proof.
  intros Ht. destruct t as [s|]; [|done]. unfold GEOM_MAP_get.
  assert (PyDict.get s GEOM_MAP = None) as ->; [|done].
  apply PyDictFacts.get_None. exact (Ht s eq_refl).
Qed.

(** C10.  When no keyword occurs in the name and the first feature's
    geometry type is none of the six types of [GEOM_MAP] (or is missing),
    the inferred kind is polygon. *)
Theorem detect_type_unrecognized_geometry
    (nm : string) (g : GeoDataFrame) (t0 : option string) (rest : list (option string)) :
  no_match NAME_TYPE nm ->
  geom_type g = t0 :: rest ->
  (forall s, t0 = Some s -> s ∉ recognized) ->
  detect_type nm (Some g) = polygon.
Proof.
  intros Hno Hg Ht. unfold detect_type.
  apply name_type_loop_None in Hno; [|apply PyStrFacts.NAME_TYPE_lowercase].
  rewrite Hno, Hg. by apply GEOM_MAP_get_unrecognized.
Qed.

Lemma detect_type_infers_witness :
  infers "building_outline" (Some two_points) polygon.
Proof. apply detect_type_infers. reflexivity. Defined.

Lemma detect_type_unrecognized_geometry_witness :
  detect_type "survey_2021"
    (Some {| crs := Some 4326%Z; columns := [("geometry", false)];
             geom_type := [Some "GeometryCollection"];
             to_json := PNone; total_bounds := [] |}) = polygon.
Proof.
  eapply detect_type_unrecognized_geometry.
  - apply name_type_loop_None; [apply PyStrFacts.NAME_TYPE_lowercase | reflexivity].
  - reflexivity.
  - intros s [= <-]. unfold recognized. intros H. by vm_compute in H; set_solver.
Defined.

End DetectType.

(** * The loader and the refresh loop *)

Section Loader.
Variable w : world.

Lemma load_shp_cache path s : layer_cache (load_shp w path s).2 = layer_cache s.
Proof.
  unfold load_shp. destruct (HAS_GPD w); simpl; [|done].
  by destruct (open_frame w path).
Qed.

Lemma load_shp_None path s : (load_shp w path s).1 = None <-> load_fails w path.
Proof.
  unfold load_shp, load_fails. destruct (HAS_GPD w); simpl.
  - destruct (open_frame w path); simpl; naive_solver.
  - naive_solver.
Qed.

Lemma load_shp_Some path s d :
  (load_shp w path s).1 = Some d ->
  name d = PyStr.stem path /\ file_path d = Some path /\ style d = None.
Proof.
  unfold load_shp. destruct (HAS_GPD w); simpl; [|done].
  destruct (open_frame w path); simpl; [|done]. by intros [= <-].
Qed.

Lemma load_shp_untimed path s1 s2 :
  untimed <$> (load_shp w path s1).1 = untimed <$> (load_shp w path s2).1.
Proof.
  unfold load_shp. destruct (HAS_GPD w); simpl; [|done].
  by destruct (open_frame w path).
Qed.

Lemma load_shp_trace path s :
  exists ext,
    trace (load_shp w path s).2 = trace s ++ ext /\
    reads_under_lock false ext = false /\
    (HAS_GPD w = true -> exists ext', ext = ReadFile path :: ext' /\
       forall q, count_reads q ext' = 0).
Proof.
  unfold load_shp. destruct (HAS_GPD w); simpl.
  - destruct (open_frame w path); simpl.
    + exists [ReadFile path]. split; [done|]. split; [done|]. intros _. by exists [].
    + exists [ReadFile path; PrintErr path]. rewrite <- app_assoc.
      split; [done|]. split; [done|]. intros _. by exists [PrintErr path].
  - exists []. by rewrite app_nil_r.
Qed.
End Loader.

(** [_load_samples] in terms of its loop. *)
Section SampleLoop.
Variable w : world.

Lemma samples_loop_trace l : forall s, trace (samples_loop w l s) = trace s.
Proof. induction l as [|d l IH]; intros s; simpl; [done|]. by rewrite IH. Qed.

Lemma emit_cache e s : layer_cache (emit e s) = layer_cache s.
Proof. reflexivity. Qed.

Lemma emit_trace e s : trace (emit e s) = trace s ++ [e].
Proof. reflexivity. Qed.

Lemma load_samples_cache s :
  layer_cache (_load_samples w s) = layer_cache (samples_loop w raw (emit LockAcquire s)).
Proof. unfold _load_samples. by rewrite !emit_cache. Qed.

Lemma load_samples_trace s :
  trace (_load_samples w s) =
  trace s ++ [LockAcquire; LockRelease; PrintInfo (length raw)].
Proof.
  unfold _load_samples. rewrite !emit_trace, samples_loop_trace, emit_trace.
  by rewrite <- !app_assoc.
Qed.

End SampleLoop.

Section Content.

Lemma content_set c k v :
  content (PyDict.set k v c) = PyDict.set k (untimed v) (content c).
Proof.
  unfold content. induction c as [|[k0 v0] r IH]; simpl; [done|].
  destruct (String.eqb k0 k); simpl; [done | f_equal; apply IH].
Qed.

Lemma content_nil c : content c = [] <-> c = [].
Proof. unfold content. by destruct c. Qed.

Lemma content_is_empty c1 c2 :
  content c1 = content c2 -> PyDict.is_empty c1 = PyDict.is_empty c2.
Proof. intros H. destruct c1, c2; done. Qed.

Lemma untimed_set_style d1 d2 st :
  untimed d1 = untimed d2 -> untimed (set_style d1 st) = untimed (set_style d2 st).
Proof. destruct d1, d2. unfold untimed, set_style; simpl. congruence. Qed.

Lemma untimed_name d1 d2 : untimed d1 = untimed d2 -> name d1 = name d2.
Proof. intros H. by apply (f_equal name) in H. Qed.

Lemma untimed_type d1 d2 : untimed d1 = untimed d2 -> type d1 = type d2.
Proof. intros H. by apply (f_equal type) in H. Qed.

Lemma untimed_count d1 d2 : untimed d1 = untimed d2 -> count d1 = count d2.
Proof. intros H. by apply (f_equal count) in H. Qed.

Variable w : world.

Lemma refresh_loop_content l : forall i s1 s2,
  content (layer_cache s1) = content (layer_cache s2) ->
  content (layer_cache (refresh_loop w i l s1)) =
  content (layer_cache (refresh_loop w i l s2)).
Proof.
  induction l as [|p l IH]; intros i s1 s2 H; simpl; [done|].
  pose proof (load_shp_untimed w p s1 s2) as Hu.
  pose proof (load_shp_cache w p s1) as Hc1.
  pose proof (load_shp_cache w p s2) as Hc2.
  destruct (load_shp w p s1) as [[d1|] t1], (load_shp w p s2) as [[d2|] t2];
    simpl in *; try done.
  - apply IH. simpl. apply (inj Some) in Hu.
    rewrite !content_set, Hc1, Hc2, H, (untimed_name _ _ Hu), (untimed_type _ _ Hu).
    by rewrite (untimed_set_style d1 d2 _ Hu).
  - apply IH. by rewrite Hc1, Hc2.
Qed.

Lemma samples_loop_content l : forall s1 s2,
  content (layer_cache s1) = content (layer_cache s2) ->
  content (layer_cache (samples_loop w l s1)) =
  content (layer_cache (samples_loop w l s2)).
Proof.
  induction l as [|d l IH]; intros s1 s2 H; simpl; [done|].
  apply IH. simpl. by rewrite !content_set, H.
Qed.

Lemma refresh_all_content s1 s2 :
  content (layer_cache (refresh_all w s1)) = content (layer_cache (refresh_all w s2)).
Proof.
  unfold refresh_all. simpl.
  set (t1 := refresh_loop w 0 (shps w) _).
  set (t2 := refresh_loop w 0 (shps w) _).
  assert (content (layer_cache t1) = content (layer_cache t2)) as H
    by (by apply refresh_loop_content).
  rewrite (content_is_empty _ _ H).
  destruct (PyDict.is_empty (layer_cache t2)); [|done].
  rewrite !load_samples_cache. by apply samples_loop_content.
Qed.

(** C2.  With the directory, its files and the parsing library
    unchanged, a second [refresh_all] leaves the cache with the same
    names in the same order, and under each name the same kind, style
    (colour included), geometry, bounds, count, fields and path as the
    first: only the load times are new. *)
Theorem refresh_all_idempotent (s : state) :
  content (layer_cache (refresh_all w (refresh_all w s))) =
  content (layer_cache (refresh_all w s)).
Proof. apply refresh_all_content. Qed.

End Content.

(** * The sample fallback *)

Section Fallback.
Variable w : world.

Lemma refresh_loop_nil_iff l : forall i s,
  layer_cache (refresh_loop w i l s) = [] <->
  layer_cache s = [] /\ Forall (load_fails w) l.
Proof.
  induction l as [|p l IH]; intros i s; simpl.
  - split; [intros ?; by split | by intros [? _]].
  - pose proof (load_shp_None w p s) as Hn.
    pose proof (load_shp_cache w p s) as Hc.
    destruct (load_shp w p s) as [[d|] t]; simpl in *; rewrite IH, Forall_cons.
    + simpl. split.
      * intros [H _]. by apply PyDictFacts.set_not_nil in H.
      * intros [_ [H _]]. by apply Hn in H.
    + rewrite Hc. split; [intros [? ?]; split_and!; by try apply Hn | by intros [? [_ ?]]].
Qed.

Lemma refresh_loop_paths l : forall i s,
  Forall (fun kv => file_path kv.2 <> None) (layer_cache s) ->
  Forall (fun kv => file_path kv.2 <> None) (layer_cache (refresh_loop w i l s)).
Proof.
  induction l as [|p l IH]; intros i s H; simpl; [done|].
  pose proof (load_shp_Some w p s) as Hs.
  pose proof (load_shp_cache w p s) as Hc.
  destruct (load_shp w p s) as [[d|] t]; simpl in *; apply IH; simpl.
  - destruct (Hs d eq_refl) as (_ & Hp & _).
    apply PyDictFacts.Forall_set; [by rewrite Hc | simpl; by rewrite Hp].
  - by rewrite Hc.
Qed.

Lemma refresh_loop_wf l : forall i s,
  PyDict.wf (layer_cache s) -> PyDict.wf (layer_cache (refresh_loop w i l s)).
Proof.
  induction l as [|p l IH]; intros i s H; simpl; [done|].
  pose proof (load_shp_cache w p s) as Hc.
  destruct (load_shp w p s) as [[d|] t]; simpl in *; apply IH; simpl.
  - apply PyDictFacts.wf_set. by rewrite Hc.
  - by rewrite Hc.
Qed.

Lemma samples_loop_wf l : forall s,
  PyDict.wf (layer_cache s) -> PyDict.wf (layer_cache (samples_loop w l s)).
Proof.
  induction l as [|d l IH]; intros s H; simpl; [done|].
  apply IH. simpl. by apply PyDictFacts.wf_set.
Qed.

Lemma samples_loop_fresh l : forall s,
  NoDup (raw_name <$> l) ->
  Forall (fun d => raw_name d ∉ PyDict.keys (layer_cache s)) l ->
  exists new,
    layer_cache (samples_loop w l s) = layer_cache s ++ new /\
    Forall2 sample_entry new l.
Proof.
  induction l as [|d l IH]; intros s Hnd Hfresh; simpl.
  - exists []. by rewrite app_nil_r.
  - rewrite fmap_cons in Hnd. apply NoDup_cons in Hnd as [Hd Hnd].
    apply Forall_cons in Hfresh as [Hfd Hfresh].
    edestruct (IH (with_cache (PyDict.set (raw_name d)
        {| name := raw_name d; type := raw_type d; geojson := to_geojson d;
           bounds := raw_bounds d; count := length (raw_features d);
           fields := raw_fields d;
           style := Some (make_style (raw_type d) (raw_color d));
           file_path := None; loaded_at := clock w (ticks s) |}
        (layer_cache s)) (time_time w s).2)) as (new & Hnew & Hall); [done| |].
    + simpl. rewrite PyDictFacts.set_fresh by done.
      apply Forall_forall. intros d' Hd'. unfold PyDict.keys.
      rewrite fmap_app, elem_of_app. simpl. rewrite list_elem_of_singleton.
      intros [Hin|Heq].
      * by apply (proj1 (Forall_forall _ _) Hfresh d' Hd').
      * apply Hd. rewrite <- Heq. by apply list_elem_of_fmap_2.
    + eexists (_ :: new). split.
      * etrans; [exact Hnew|]. simpl.
        rewrite PyDictFacts.set_fresh by done. by rewrite <- app_assoc.
      * constructor; [by split | done].
Qed.

Lemma raw_names_NoDup : NoDup (raw_name <$> raw).
Proof. apply (bool_decide_unpack _). by vm_compute. Qed.

Lemma load_samples_entries s :
  layer_cache s = [] -> Forall2 sample_entry (layer_cache (_load_samples w s)) raw.
Proof.
  intros Hs. rewrite load_samples_cache.
  destruct (samples_loop_fresh raw (emit LockAcquire s) raw_names_NoDup)
    as (new & Hnew & Hall).
  - cbn [layer_cache emit]. rewrite Hs. apply Forall_forall. intros d _. apply not_elem_of_nil.
  - cbn [layer_cache emit] in Hnew. rewrite Hs, app_nil_l in Hnew. by rewrite Hnew.
Qed.

Lemma sample_entry_no_path kv d : sample_entry kv d -> file_path kv.2 = None.
Proof. intros [_ H]. by apply (f_equal file_path) in H. Qed.

(** The state [refresh_all] reaches at the end of its [with] block. *)
Lemma refresh_all_cases s :
  let t := emit LockRelease
             (refresh_loop w 0 (shps w) (with_cache [] (emit LockAcquire s))) in
  (Forall (load_fails w) (shps w) /\ layer_cache t = [] /\
     refresh_all w s = _load_samples w t) \/
  (Exists (fun p => ~ load_fails w p) (shps w) /\ layer_cache t <> [] /\
     refresh_all w s = t /\
     Forall (fun kv => file_path kv.2 <> None) (layer_cache t)).
Proof.
  intros t.
  assert (refresh_all w s =
          if PyDict.is_empty (layer_cache t) then _load_samples w t else t) as ->
    by reflexivity.
  destruct (PyDict.is_empty (layer_cache t)) eqn:He.
  - left. apply PyDictFacts.is_empty_nil in He.
    split; [|done]. subst t. simpl in He. by apply refresh_loop_nil_iff in He as [_ ?].
  - right. assert (layer_cache t <> []) as Hne.
    { intros H. apply PyDictFacts.is_empty_nil in H. congruence. }
    split; [|split; [done|split; [done|]]].
    + subst t. simpl in *. clear He.
      assert (~ Forall (load_fails w) (shps w)) as Hnot.
      { intros H. apply Hne. by apply refresh_loop_nil_iff. }
      clear Hne. induction (shps w) as [|p l IH]; [by destruct Hnot|].
      pose proof (load_shp_None w p init_state) as Hn.
      destruct (load_shp w p init_state).1 as [d|].
      * left. intros Hf. by apply Hn in Hf.
      * right. apply IH. intros Hl. apply Hnot. constructor; [by apply Hn | done].
    + subst t. simpl. by apply refresh_loop_paths.
Qed.

(** C3, as the code has it.  [refresh_all] installs the fixed sample
    set exactly when no enumerated source file loads, which includes the
    case of an empty enumeration: the cache is then the samples, in the
    order of their definitions.  When some file loads, the cache is not
    empty and holds only records read from files. *)
Theorem sample_fallback_iff (s : state) :
  (Forall (load_fails w) (shps w) <->
   Forall2 sample_entry (layer_cache (refresh_all w s)) raw) /\
  (Exists (fun p => ~ load_fails w p) (shps w) <->
   layer_cache (refresh_all w s) <> [] /\
   Forall (fun kv => file_path kv.2 <> None) (layer_cache (refresh_all w s))).
Proof.
  destruct (refresh_all_cases s) as [(Hall & Ht & ->)|(Hex & Hne & -> & Hp)].
  - pose proof (load_samples_entries _ Ht) as Hs. split; [by split|].
    split.
    + intros Hex. apply Exists_exists in Hex as (p & Hp & Hnp).
      destruct Hnp. by apply (proj1 (Forall_forall _ _) Hall).
    + intros [Hne Hp]. exfalso.
      destruct (layer_cache (_load_samples w _)) as [|kv c]; [done|].
      apply Forall2_cons_inv_l in Hs as (d & ? & Hd & _ & _).
      apply Forall_cons in Hp as [Hkv _]. by apply sample_entry_no_path in Hd.
  - split; [|by split]. split.
    + intros Hall. exfalso.
      apply Exists_exists in Hex as (p & Hin & Hnp).
      by apply Hnp, (proj1 (Forall_forall _ _) Hall).
    + intros Hs. exfalso.
      destruct (layer_cache _) as [|kv c]; [done|].
      apply Forall2_cons_inv_l in Hs as (d & ? & Hd & _ & _).
      apply Forall_cons in Hp as [Hkv _]. by apply sample_entry_no_path in Hd.
Qed.

End Fallback.


(** * Enumeration *)

Section Enumeration.
Variable w : world.

(** Without glob magic in the path of the data directory, what the
    top-level pattern matches the recursive pattern matches too. *)
Lemma glob_flat_in_recursive p :
  Glob.has_magic (DATA_DIR w) = false ->
  In p (Glob.glob_flat w) -> In p (Glob.glob_recursive w).
Proof.
  unfold Glob.glob_recursive, Glob.glob_flat, Glob.base_dirs. intros ->.
  cbn [flat_map fst snd Glob.glob2]. rewrite !app_nil_r, in_app_iff. intros Hin. left.
  erewrite map_ext; [exact Hin|]. intros nm. apply PyStrFacts.path_join_empty.
Qed.

Lemma count_reads_app p tr1 tr2 :
  count_reads p (tr1 ++ tr2) = count_reads p tr1 + count_reads p tr2.
Proof.
  induction tr1 as [|e tr1 IH]; simpl; [done|].
  destruct e; try done. rewrite IH. lia.
Qed.

Lemma refresh_loop_reads p l : forall i s,
  HAS_GPD w = true ->
  count_reads p (trace (refresh_loop w i l s)) =
  count_reads p (trace s) + count_occ String.string_dec l p.
Proof.
  induction l as [|q l IH]; intros i s Hg; simpl; [lia|].
  destruct (load_shp_trace w q s) as (ext & Hext & _ & Hread).
  destruct (Hread Hg) as (ext' & -> & Hnone).
  destruct (load_shp w q s) as [[d|] t]; simpl in *; rewrite IH by done; simpl;
    rewrite Hext, ?count_reads_app; simpl; rewrite ?count_reads_app, ?Hnone; simpl;
    destruct (String.eqb_spec q p), (String.string_dec q p); try done; lia.
Qed.

Lemma refresh_all_reads p s :
  HAS_GPD w = true ->
  count_reads p (trace (refresh_all w s)) =
  count_reads p (trace s) + count_occ String.string_dec (shps w) p.
Proof.
  intros Hg. unfold refresh_all.
  set (t := refresh_loop w 0 (shps w) _).
  assert (count_reads p (trace t) =
          count_reads p (trace s) + count_occ String.string_dec (shps w) p) as Ht.
  { subst t. rewrite refresh_loop_reads by done. simpl.
    rewrite count_reads_app. simpl. lia. }
  assert (count_reads p (trace (emit LockRelease t)) = count_reads p (trace t)) as Hr.
  { simpl. rewrite count_reads_app. simpl. lia. }
  destruct (PyDict.is_empty _); [|by rewrite Hr].
  rewrite load_samples_trace, count_reads_app, Hr. cbn [count_reads]. lia.
Qed.

Lemma refresh_all_wf s : PyDict.wf (layer_cache (refresh_all w s)).
Proof.
  unfold refresh_all.
  set (t := refresh_loop w 0 (shps w) _).
  assert (PyDict.wf (layer_cache t)) as Ht.
  { subst t. apply refresh_loop_wf. simpl. apply NoDup_nil_2. }
  destruct (PyDict.is_empty _); [|done].
  rewrite load_samples_cache. by apply samples_loop_wf.
Qed.

Lemma loop_records_cache l : forall i s,
  layer_cache (refresh_loop w i l s) =
  fold_left assign (loop_records w i l s) (layer_cache s).
Proof.
  induction l as [|p l IH]; intros i s; [done|].
  cbn [refresh_loop loop_records].
  pose proof (load_shp_cache w p s) as Hc.
  destruct (load_shp w p s) as [[d|] t]; cbn [snd] in Hc.
  - rewrite IH. cbn [fold_left]. unfold assign at 2.
    rewrite emit_cache. cbn [layer_cache with_cache]. by rewrite Hc.
  - by rewrite IH, Hc.
Qed.

Lemma sample_records_cache l : forall s,
  layer_cache (samples_loop w l s) =
  fold_left assign (sample_records w l s) (layer_cache s).
Proof.
  induction l as [|d l IH]; intros s; [done|].
  cbn [samples_loop sample_records time_time]. by rewrite IH.
Qed.

Lemma fold_assign_nil ds c : fold_left assign ds c = [] -> ds = [].
Proof.
  destruct ds as [|d ds]; [done|]. cbn [fold_left]. intros H. exfalso.
  assert (forall l c', c' <> [] -> fold_left assign l c' <> []) as Hne.
  { induction l as [|x l IHl]; intros c' Hc'; [done|]. cbn [fold_left].
    apply IHl. apply PyDictFacts.set_not_nil. }
  by apply (Hne ds (assign c d)); [apply PyDictFacts.set_not_nil|].
Qed.

Lemma styled_load_eq j q s :
  styled_load w j q =
  match (load_shp w q s).1 with
  | Some d => Some (file_path d, Some (make_style (type d) (COLORS_at (j mod length COLORS))))
  | None => None
  end.
Proof.
  unfold styled_load, load_shp. destruct (HAS_GPD w); [|done].
  by destruct (open_frame w q).
Qed.

Lemma loop_records_styles l : forall i s,
  (fun d => (file_path d, style d)) <$> loop_records w i l s =
  omap (fun jq => styled_load w jq.1 jq.2) (imap (fun j q => (i + j, q)) l).
Proof.
  induction l as [|p l IH]; intros i s; [done|].
  rewrite imap_cons.
  assert (imap ((fun j q => (i + j, q)) ∘ S) l = imap (fun j q => (S i + j, q)) l) as ->.
  { apply imap_ext. intros j q _. simpl. f_equal. lia. }
  assert (forall (f : nat * string -> option (option string * option (list (string * pyval))))
                 x rest,
            omap f (x :: rest) =
            match f x with Some y => y :: omap f rest | None => omap f rest end) as Hcons
    by done.
  rewrite Hcons. cbn [fst snd]. rewrite Nat.add_0_r, (styled_load_eq i p s).
  cbn [loop_records]. destruct (load_shp w p s) as [[d|] t]; cbn [fst].
  - rewrite fmap_cons. by rewrite IH.
  - by rewrite IH.
Qed.

Lemma refresh_all_assignments s :
  layer_cache (refresh_all w s) =
  fold_left assign
    match refresh_assignments w s with
    | [] => sample_assignments w s
    | ds => ds
    end [].
Proof.
  set (s0 := with_cache [] (emit LockAcquire s)).
  assert (refresh_assignments w s = loop_records w 0 (shps w) s0) as Hra by reflexivity.
  assert (sample_assignments w s =
          sample_records w raw
            (emit LockAcquire (emit LockRelease (refresh_loop w 0 (shps w) s0)))) as Hsa
    by reflexivity.
  pose proof (loop_records_cache (shps w) 0 s0) as Hloop.
  change (layer_cache s0) with (@nil (string * layer)) in Hloop.
  destruct (refresh_all_cases w s) as [(_ & Ht & ->)|(_ & Hne & -> & _)].
  - fold s0 in Ht. fold s0.
    rewrite emit_cache, Hloop in Ht. apply fold_assign_nil in Ht as Hnil.
    rewrite Hra, Hnil, Hsa, load_samples_cache, sample_records_cache, !emit_cache.
    by rewrite Hloop, Hnil.
  - fold s0 in Hne. fold s0.
    rewrite emit_cache, Hloop in Hne. rewrite emit_cache, Hloop, Hra.
    destruct (loop_records w 0 (shps w) s0) as [|d ds]; [|reflexivity].
    exfalso. apply Hne. reflexivity.
Qed.

(** C4, as the code has it.  The enumeration is the matches of the
    recursive pattern followed by those of the top-level pattern, with no
    duplicate removed.  With no glob magic in the path of the data
    directory, a path matched directly under it occurs at least twice in
    the enumeration; every occurrence is read once when the parsing
    library is present; the loop assigns one record per occurrence that
    loads, styled with the palette colour of the position of that
    occurrence in the enumeration, every earlier occurrence counted
    whether it loaded or not; the cache is the result of these assignments
    in order, a later one replacing an earlier one of the same name, and
    so ends without a repeated key. *)
Theorem top_level_files_enumerated_twice (s : state) (p : string) :
  Glob.has_magic (DATA_DIR w) = false ->
  In p (Glob.glob_flat w) ->
  shps w = Glob.glob_recursive w ++ Glob.glob_flat w /\
  2 <= count_occ String.string_dec (shps w) p /\
  (HAS_GPD w = true ->
   count_reads p (trace (refresh_all w s)) =
   count_reads p (trace s) + count_occ String.string_dec (shps w) p) /\
  (fun d => (file_path d, style d)) <$> refresh_assignments w s =
    omap (fun jq => styled_load w jq.1 jq.2) (imap (fun j q => (j, q)) (shps w)) /\
  (refresh_assignments w s <> [] ->
   layer_cache (refresh_all w s) =
   fold_left (fun c d => PyDict.set (name d) d c) (refresh_assignments w s) []) /\
  PyDict.wf (layer_cache (refresh_all w s)).
Proof.
  intros Hm Hin. split; [done|].
  assert (2 <= count_occ String.string_dec (shps w) p) as H2.
  { unfold shps. rewrite count_occ_app.
    pose proof (glob_flat_in_recursive p Hm Hin) as Hrec.
    apply (count_occ_In String.string_dec) in Hin, Hrec. lia. }
  split; [done|]. split; [by apply refresh_all_reads|].
  split; [apply (loop_records_styles (shps w) 0)|].
  split; [|apply refresh_all_wf].
  intros Hne. rewrite refresh_all_assignments.
  destruct (refresh_assignments w s) as [|d ds]; [|reflexivity].
  exfalso. by apply Hne.
Qed.

End Enumeration.


(** * The refresh at concrete directories *)

Section Concrete.

(** At an empty data directory the fallback installs the samples. *)
Lemma sample_fallback_iff_witness :
  Forall2 sample_entry (layer_cache (refresh_all empty_world init_state)) raw.
Proof.
  apply (proj1 (proj1 (sample_fallback_iff empty_world init_state))).
  constructor.
Defined.

(** A source file is on disk and is enumerated, it cannot be parsed, and
    the cache is filled with the samples all the same. *)
Lemma samples_despite_source_file :
  shps corrupt_file_world =
    ["/srv/backend/data/parcels.shp"; "/srv/backend/data/parcels.shp"] /\
  Forall2 sample_entry (layer_cache (refresh_all corrupt_file_world init_state)) raw.
Proof.
  split; [reflexivity|].
  destruct (refresh_all_cases corrupt_file_world init_state)
    as [(_ & Ht & ->)|(Hex & _)].
  - by apply load_samples_entries.
  - apply Exists_exists in Hex as (q & _ & Hq). destruct Hq. by right.
Qed.

(** The only file of the directory is enumerated twice, read twice, and
    cached with the second colour of the palette. *)
Lemma top_level_file_loaded_twice :
  shps one_file_world =
    ["/srv/backend/data/roads.shp"; "/srv/backend/data/roads.shp"] /\
  count_reads "/srv/backend/data/roads.shp"
    (trace (refresh_all one_file_world init_state)) = 2 /\
  (exists l,
     layer_cache (refresh_all one_file_world init_state) = [("roads", l)] /\
     style l = Some (make_style polyline (COLORS_at 1)) /\
     COLORS_at 1 <> COLORS_at 0).
Proof.
  split; [reflexivity|]. split; [reflexivity|].
  eexists. split; [reflexivity|]. split; [reflexivity|]. by vm_compute.
Qed.

Lemma top_level_files_enumerated_twice_witness :
  2 <= count_occ String.string_dec (shps one_file_world) "/srv/backend/data/roads.shp" /\
  (fun d => (file_path d, style d)) <$> refresh_assignments one_file_world init_state =
    [ (Some "/srv/backend/data/roads.shp", Some (make_style polyline (COLORS_at 0)));
      (Some "/srv/backend/data/roads.shp", Some (make_style polyline (COLORS_at 1))) ].
Proof.
  destruct (top_level_files_enumerated_twice one_file_world init_state
              "/srv/backend/data/roads.shp") as (_ & H2 & _ & Hst & _).
  - reflexivity.
  - simpl. by left.
  - split; [exact H2|]. rewrite Hst. vm_compute. reflexivity.
Defined.

End Concrete.

(** * Sample styles *)

Section Samples.
Variable w : world.

Lemma make_style_color t c : PyDict.get "color" (make_style t c) = Some (PStr c).
Proof. by destruct t. Qed.

Lemma raw_colors_in_palette : Forall (fun d => raw_color d ∈ COLORS) raw.
Proof. apply (bool_decide_unpack _). by vm_compute. Qed.

(** C8, as the code has it.  The i-th sample is installed at position i
    of an empty cache under its own name, with the kind of its
    definition and with the style that [make_style], the derivation used
    for loaded files, gives for that kind and for the colour written in
    the definition, which is a colour of the palette. *)
Theorem sample_styles (s : state) (i : nat) (d : raw_layer) :
  layer_cache s = [] ->
  raw !! i = Some d ->
  exists l,
    layer_cache (_load_samples w s) !! i = Some (raw_name d, l) /\
    type l = raw_type d /\
    style l = Some (make_style (raw_type d) (raw_color d)) /\
    PyDict.get "color" (make_style (raw_type d) (raw_color d)) = Some (PStr (raw_color d)) /\
    raw_color d ∈ COLORS.
Proof.
  intros Hs Hd.
  pose proof (load_samples_entries w s Hs) as Hall.
  destruct (Forall2_lookup_r _ _ _ _ _ Hall Hd) as ([k l] & Hkl & Hk & Hl).
  simpl in Hk, Hl. subst k. exists l. split; [done|].
  split; [by apply (f_equal type) in Hl|].
  split; [by apply (f_equal style) in Hl|].
  split; [apply make_style_color|].
  apply (proj1 (Forall_forall _ _) raw_colors_in_palette).
  by eapply list_elem_of_lookup_2.
Qed.

End Samples.

Section SamplesConcrete.

Lemma sample_styles_witness :
  exists l,
    layer_cache (_load_samples empty_world init_state) !! 3%nat = Some ("road_network", l) /\
    type l = polyline /\
    style l = Some (make_style polyline "#90A4AE") /\
    PyDict.get "color" (make_style polyline "#90A4AE") = Some (PStr "#90A4AE") /\
    "#90A4AE" ∈ COLORS.
Proof.
  assert (exists d, raw !! 3%nat = Some d /\ raw_name d = "road_network" /\
                    raw_type d = polyline /\ raw_color d = "#90A4AE")
    as (d & Hd & Hn & Ht & Hc).
  { eexists. split; [vm_compute; reflexivity|]. by vm_compute. }
  destruct (sample_styles empty_world init_state 3 d eq_refl Hd)
    as (l & H1 & H2 & H3 & H4 & H5).
  rewrite Hn, Ht, Hc in *. exists l.
  split; [exact H1|]. split; [exact H2|]. split; [exact H3|]. split; [exact H4 | exact H5].
Defined.

(** The second sample, [buildings], is styled with the third colour of
    the palette, not with the colour at its position. *)
Lemma sample_color_not_by_load_order :
  exists d l,
    raw !! 1%nat = Some d /\
    layer_cache (_load_samples empty_world init_state) !! 1%nat = Some (raw_name d, l) /\
    PyDict.get "color" (default [] (style l)) = Some (PStr (COLORS_at 2)) /\
    style l <> Some (make_style (type l) (COLORS_at (1 mod length COLORS))).
Proof.
  destruct (layer_cache (_load_samples empty_world init_state) !! 1%nat)
    as [[k l]|] eqn:E; vm_compute in E; [|discriminate].
  injection E as Hk Hl. subst k l.
  eexists _, _. split; [vm_compute; reflexivity|]. split; [vm_compute; reflexivity|].
  split; [vm_compute; reflexivity|]. by vm_compute.
Qed.

End SamplesConcrete.


(** * File reads and the cache lock *)

Section Lock.
Variable w : world.

Lemma refresh_loop_trace l : forall i s,
  exists ext, trace (refresh_loop w i l s) = trace s ++ ext.
Proof.
  induction l as [|p l IH]; intros i s; simpl.
  - exists []. by rewrite app_nil_r.
  - destruct (load_shp_trace w p s) as (ext & Hext & _).
    destruct (load_shp w p s) as [[d|] t]; simpl in *.
    + edestruct IH as [ext' ->]. simpl. rewrite Hext, <- !app_assoc. by eexists.
    + edestruct IH as [ext' ->]. rewrite Hext, <- !app_assoc. by eexists.
Qed.

Lemma refresh_loop_first_read p l i s :
  HAS_GPD w = true ->
  exists ext, trace (refresh_loop w i (p :: l) s) = trace s ++ ReadFile p :: ext.
Proof.
  intros Hg. simpl.
  destruct (load_shp_trace w p s) as (ext & Hext & _ & Hread).
  destruct (Hread Hg) as (ext' & -> & _).
  destruct (load_shp w p s) as [[d|] t]; simpl in *.
  - edestruct refresh_loop_trace as [ext'' ->]. simpl.
    rewrite Hext, <- !app_assoc. simpl. by eexists.
  - edestruct refresh_loop_trace as [ext'' ->].
    rewrite Hext, <- !app_assoc. simpl. by eexists.
Qed.

(** C9, what the code does instead.  Whenever the parsing library is
    present and the enumeration is not empty, [refresh_all] reads a file
    while it holds the cache lock: its events start with the acquisition
    of the lock followed by the read of the first enumerated path. *)
Theorem refresh_all_reads_under_lock (s : state) (p : string) (l : list string) :
  HAS_GPD w = true ->
  shps w = p :: l ->
  exists ext,
    trace (refresh_all w s) = trace s ++ LockAcquire :: ReadFile p :: ext /\
    reads_under_lock false (LockAcquire :: ReadFile p :: ext) = true.
Proof.
  intros Hg Hl. unfold refresh_all. rewrite Hl.
  destruct (refresh_loop_first_read p l 0 (with_cache [] (emit LockAcquire s)) Hg)
    as [ext Hext].
  set (t := refresh_loop w 0 (p :: l) _) in *. simpl in Hext.
  destruct (PyDict.is_empty _).
  - rewrite load_samples_trace. cbn [trace emit].
    rewrite Hext, <- !app_assoc. rewrite <- !app_comm_cons. eexists. split; [done|]. done.
  - simpl. rewrite Hext, <- !app_assoc. simpl. eexists. split; [done|]. done.
Qed.

(** The incremental reload, by contrast, reads before it takes the lock. *)
Lemma reload_reads_outside_lock path s :
  exists ext,
    trace (_reload w path s) = trace s ++ ext /\ reads_under_lock false ext = false.
Proof.
  unfold _reload, load_shp. destruct (HAS_GPD w); simpl.
  - destruct (open_frame w path); simpl; rewrite <- !app_assoc; simpl;
      eexists; (split; [done|]); done.
  - rewrite <- !app_assoc. simpl. eexists; (split; [done|]); done.
Qed.

End Lock.

Section LockConcrete.

Lemma refresh_all_reads_under_lock_witness :
  exists ext,
    trace (refresh_all one_file_world init_state) =
      trace init_state ++ LockAcquire :: ReadFile "/srv/backend/data/roads.shp" :: ext /\
    reads_under_lock false
      (LockAcquire :: ReadFile "/srv/backend/data/roads.shp" :: ext) = true.
Proof.
  apply (refresh_all_reads_under_lock one_file_world init_state
           "/srv/backend/data/roads.shp" ["/srv/backend/data/roads.shp"]);
    reflexivity.
Defined.

End LockConcrete.

(** * The change watcher *)

Section Watcher.
Variable w : world.

Lemma reload_cache path s :
  layer_cache (_reload w path s) =
  match (load_shp w path s).1 with
  | Some d =>
      PyDict.set (PyStr.stem path)
        (set_style d (make_style (type d)
           (COLORS_at (PyDict.len (layer_cache s) mod length COLORS))))
        (layer_cache s)
  | None => PyDict.pop (PyStr.stem path) (layer_cache s)
  end.
Proof.
  unfold _reload. pose proof (load_shp_cache w path s) as Hc.
  destruct (load_shp w path s) as [[d|] t]; simpl in *; by rewrite Hc.
Qed.

Lemma reload_reads path s :
  HAS_GPD w = true ->
  count_reads path (trace (_reload w path s)) = S (count_reads path (trace s)).
Proof.
  intros Hg. unfold _reload, load_shp. rewrite Hg. simpl.
  destruct (open_frame w path); simpl;
    rewrite !count_reads_app; simpl; rewrite String.eqb_refl; lia.
Qed.

(** C6.  When a started timer fires, [load_shp] runs on the timer's path
    (one more read of that path when the parsing library is present).
    If it yields a record, the cache then holds under the path's stem
    that record, styled for its kind with the palette colour whose index
    is the size the cache had, modulo the size of the palette; if it
    fails, the cache holds nothing under that stem.  Other names are
    untouched and no key is repeated. *)
Theorem timer_fires_reload
    (t : nat) (h : SHPHandler) (s : state) (delay : pyval) (path : string) :
  started h !! t = Some (delay, path) ->
  PyDict.wf (layer_cache s) ->
  let s' := (timer_fires w t (h, s)).2 in
  let nm := PyStr.stem path in
  let color := COLORS_at (PyDict.len (layer_cache s) mod length COLORS) in
  match (load_shp w path s).1 with
  | Some d =>
      PyDict.get nm (layer_cache s') = Some (set_style d (make_style (type d) color)) /\
      PyDict.get "color" (make_style (type d) color) = Some (PStr color)
  | None => PyDict.get nm (layer_cache s') = None
  end /\
  (forall k, k <> nm -> PyDict.get k (layer_cache s') = PyDict.get k (layer_cache s)) /\
  PyDict.wf (layer_cache s') /\
  (HAS_GPD w = true -> count_reads path (trace s') = S (count_reads path (trace s))) /\
  started (timer_fires w t (h, s)).1 !! t = None.
Proof.
  intros Ht Hwf s' nm color. subst s'. unfold timer_fires. simpl. rewrite Ht. simpl.
  rewrite reload_cache. fold nm color.
  destruct (load_shp w path s).1 as [d|].
  - split; [split|].
    + rewrite PyDictFacts.get_set. by rewrite decide_True.
    + apply make_style_color.
    + split; [|split; [by apply PyDictFacts.wf_set|split]].
      * intros k Hk. rewrite PyDictFacts.get_set. by rewrite decide_False.
      * apply reload_reads.
      * apply lookup_delete_eq.
  - split.
    + rewrite PyDictFacts.get_pop by done. by rewrite decide_True.
    + split; [|split; [by apply PyDictFacts.wf_pop|split]].
      * intros k Hk. rewrite PyDictFacts.get_pop by done. by rewrite decide_False.
      * apply reload_reads.
      * apply lookup_delete_eq.
Qed.

(** C7.  A deletion event for a file whose path ends in [.shp] removes
    the entry filed under the path's stem at once: the handler and its
    timers are as before, the only effects are taking and releasing the
    lock, no file is read and no clock is consulted.  A deletion event
    for any other path, or for a directory, changes nothing. *)
Theorem on_deleted_immediate (e : FileSystemEvent) (h : SHPHandler) (s : state) :
  PyDict.wf (layer_cache s) ->
  (is_directory e = false -> PyStr.endswith (src_path e) ".shp" = true ->
     (on_deleted e (h, s)).1 = h /\
     PyDict.get (PyStr.stem (src_path e)) (layer_cache (on_deleted e (h, s)).2) = None /\
     (forall k, k <> PyStr.stem (src_path e) ->
        PyDict.get k (layer_cache (on_deleted e (h, s)).2) = PyDict.get k (layer_cache s)) /\
     trace (on_deleted e (h, s)).2 = trace s ++ [LockAcquire; LockRelease] /\
     ticks (on_deleted e (h, s)).2 = ticks s) /\
  (PyStr.endswith (src_path e) ".shp" = false -> on_deleted e (h, s) = (h, s)) /\
  (is_directory e = true -> on_deleted e (h, s) = (h, s)).
Proof.
  intros Hwf. unfold on_deleted. split; [|split].
  - intros -> ->. simpl. split; [done|]. split; [|split; [|split; [|done]]].
    + rewrite PyDictFacts.get_pop by done. by rewrite decide_True.
    + intros k Hk. rewrite PyDictFacts.get_pop by done. by rewrite decide_False.
    + by rewrite <- app_assoc.
  - intros ->. by rewrite andb_false_r.
  - by intros ->.
Qed.

End Watcher.


Section WatcherConcrete.

Lemma timer_fires_reload_witness :
  exists l,
    PyDict.get "roads"
      (layer_cache (timer_fires one_file_world 0 (armed_handler, init_state)).2) = Some l /\
    style l = Some (make_style polyline (COLORS_at 0)).
Proof.
  destruct (timer_fires_reload one_file_world 0 armed_handler init_state
              default_delay "/srv/backend/data/roads.shp" eq_refl NoDup_nil_2)
    as [[Hget _] _].
  eexists. split; [exact Hget | reflexivity].
Defined.

Lemma on_deleted_immediate_witness :
  PyDict.get "roads"
    (layer_cache (on_deleted roads_deleted
       (armed_handler, refresh_all one_file_world init_state)).2) = None.
Proof.
  destruct (on_deleted_immediate roads_deleted armed_handler
              (refresh_all one_file_world init_state)
              (refresh_all_wf one_file_world init_state))
    as [H _].
  destruct (H eq_refl eq_refl) as (_ & Hget & _). exact Hget.
Defined.

(** The stem of a path is the key of its layer. *)
Example stem_of_nested_path : PyStr.stem "/srv/backend/data/north/water_supply.shp" = "water_supply".
Proof. reflexivity. Qed.

(** Only the load times tell the caches of two successive refreshes
    apart. *)
Example refresh_all_load_times_change :
  layer_cache (refresh_all one_file_world (refresh_all one_file_world init_state)) <>
  layer_cache (refresh_all one_file_world init_state).
Proof. by vm_compute. Qed.

End WatcherConcrete.


(** * The cache as a sequence of calls *)

Section CacheCalls.

Lemma run_ops_app ops l : run_ops (ops ++ l) = fold_left apply_op l (run_ops ops).
Proof. unfold run_ops. apply fold_left_app. Qed.

Lemma refresh_all_op w s c0 :
  layer_cache (refresh_all w s) = apply_op c0 (refresh_op w s).
Proof.
  unfold refresh_op, apply_op, PyDict.clear. rewrite refresh_all_assignments.
  unfold assign. reflexivity.
Qed.

Lemma reload_is_op w path s :
  layer_cache (_reload w path s) = apply_op (layer_cache s) (reload_op w path s).
Proof.
  rewrite reload_cache. unfold reload_op.
  pose proof (load_shp_Some w path s) as Hs.
  destruct (load_shp w path s).1 as [d|]; [|done].
  destruct (Hs d eq_refl) as (Hn & _ & _). cbn [apply_op set_style name]. by rewrite Hn.
Qed.

Lemma on_deleted_is_ops e h s :
  layer_cache (on_deleted e (h, s)).2 = fold_left apply_op (deleted_ops e) (layer_cache s).
Proof. unfold on_deleted, deleted_ops. by destruct (negb (is_directory e) && _). Qed.

Lemma reachable_cache_by_ops hs :
  reachable hs -> exists ops, layer_cache hs.2 = run_ops ops.
Proof.
  induction 1 as [|w a [h s] Hr [ops IH]]; [by exists []|].
  cbn [snd] in IH. destruct a as [| |nm|e|e|e|t]; cbn [perform fst snd].
  - exists (ops ++ [refresh_op w s]). rewrite run_ops_app.
    unfold do_refresh. cbn [snd fold_left]. apply refresh_all_op.
  - by exists ops.
  - by exists ops.
  - exists ops. unfold on_created. by destruct (negb (is_directory e)).
  - exists ops. unfold on_modified. by destruct (negb (is_directory e)).
  - exists (ops ++ deleted_ops e). by rewrite run_ops_app, on_deleted_is_ops, IH.
  - unfold timer_fires. cbn [fst snd]. destruct (started h !! t) as [[d path]|]; cbn [snd].
    + exists (ops ++ [reload_op w path s]).
      rewrite run_ops_app. cbn [fold_left]. by rewrite reload_is_op, IH.
    + by exists ops.
Qed.

(** C1.  The calls.  After any sequence of upserts, removals and bulk
    replacements on an empty cache, the cache holds no key twice, files
    every record under its own name, answers every lookup as the finite
    map implied by the calls in order does, and its values are exactly the
    entries of that map, none lost and none repeated; an upsert leaves
    exactly the given record under its name and a removal leaves nothing.

    The program.  On a state holding such a cache, [list_layers] returns
    the summaries of exactly those entries and their number, and
    [get_layer] answers as the implied map; [refresh_all] is one more bulk
    replacement, [_reload] one more upsert or removal, [on_deleted] one
    more removal or nothing; hence the cache of every state the process
    reaches is the result of such a sequence of calls. *)
Theorem cache_ops_snapshot (ops : list cache_op) (s : state) :
  NoDup (PyDict.keys (run_ops ops)) /\
  Forall (fun kv => name kv.2 = kv.1) (run_ops ops) /\
  (forall nm, PyDict.get nm (run_ops ops) = implied ops !! nm) /\
  PyDict.values (run_ops ops) ≡ₚ (map_to_list (implied ops)).*2 /\
  PyDict.len (run_ops ops) = size (implied ops) /\
  (forall d, PyDict.get (name d) (run_ops (ops ++ [Upsert d])) = Some d) /\
  (forall nm, PyDict.get nm (run_ops (ops ++ [Remove nm])) = None) /\
  (list_layers (with_cache (run_ops ops) s)).1.1 ≡ₚ
    list_item_of <$> (map_to_list (implied ops)).*2 /\
  (list_layers (with_cache (run_ops ops) s)).1.2 = size (implied ops) /\
  (forall nm, (get_layer nm (with_cache (run_ops ops) s)).1 = implied ops !! nm) /\
  (forall w, layer_cache (refresh_all w (with_cache (run_ops ops) s)) =
             run_ops (ops ++ [refresh_op w (with_cache (run_ops ops) s)])) /\
  (forall w path, layer_cache (_reload w path (with_cache (run_ops ops) s)) =
                  run_ops (ops ++ [reload_op w path (with_cache (run_ops ops) s)])) /\
  (forall e h, layer_cache (on_deleted e (h, with_cache (run_ops ops) s)).2 =
               run_ops (ops ++ deleted_ops e)) /\
  (forall hs, reachable hs -> exists ops', layer_cache hs.2 = run_ops ops').
Proof.
  pose proof (represents_run ops) as H.
  pose proof H as (Hwf & Hmap & Hnm).
  pose proof (represents_values _ _ H) as Hval.
  assert (PyDict.len (run_ops ops) = size (implied ops)) as Hlen.
  { unfold PyDict.len. rewrite <- (length_fmap snd).
    change (run_ops ops).*2 with (PyDict.values (run_ops ops)).
    rewrite Hval, length_fmap. apply length_map_to_list. }
  assert (forall nm, PyDict.get nm (run_ops ops) = implied ops !! nm) as Hget.
  { intros nm. by rewrite <- Hmap, PyDictFacts.get_to_map. }
  split; [exact Hwf|]. split; [exact Hnm|]. split; [exact Hget|].
  split; [exact Hval|]. split; [exact Hlen|].
  split.
  { intros d. rewrite run_ops_app. cbn [fold_left apply_op].
    rewrite PyDictFacts.get_set. by rewrite decide_True. }
  split.
  { intros nm. rewrite run_ops_app. cbn [fold_left apply_op].
    rewrite PyDictFacts.get_pop by exact Hwf. by rewrite decide_True. }
  unfold list_layers, get_layer. cbn [fst snd]. rewrite !emit_cache.
  cbn [layer_cache with_cache].
  split; [by rewrite Hval|].
  split; [by rewrite length_fmap, Hval, length_fmap, length_map_to_list|].
  split; [exact Hget|].
  split; [intros w; rewrite run_ops_app; apply refresh_all_op|].
  split; [intros w path; rewrite run_ops_app; apply reload_is_op|].
  split; [intros e h; rewrite run_ops_app; apply on_deleted_is_ops|].
  apply reachable_cache_by_ops.
Qed.

End CacheCalls.

Section CacheCallsConcrete.

Lemma cache_ops_snapshot_witness :
  exists ops, layer_cache rearmed_state.2 = run_ops ops.
Proof.
  destruct (cache_ops_snapshot [] init_state) as (_ & _ & _ & _ & _ & _ & _ & _ & _ & _ & _ & _ & _ & H).
  apply H. unfold rearmed_state, demo_state.
  apply reachable_step, reachable_step, reachable_step, reachable_init.
Defined.

End CacheCallsConcrete.

(** * Invariants of the running system *)

Section Invariants.

Lemma COLORS_at_palette i : COLORS_at (i mod length COLORS) ∈ COLORS.
Proof.
  unfold COLORS_at. apply list_elem_of_In, nth_In.
  apply Nat.mod_upper_bound. done.
Qed.

Lemma layer_ok_styled k d c :
  name d = k -> c ∈ COLORS -> layer_ok (k, set_style d (make_style (type d) c)).
Proof. intros Hk Hc. split; [done|]. by exists c. Qed.

Lemma refresh_loop_ok w l : forall i s,
  cache_ok (layer_cache s) -> cache_ok (layer_cache (refresh_loop w i l s)).
Proof.
  induction l as [|p l IH]; intros i s [Hwf Hok]; simpl; [done|].
  pose proof (load_shp_cache w p s) as Hc.
  destruct (load_shp w p s) as [[d|] t]; simpl in *; apply IH; simpl; rewrite Hc.
  - split; [by apply PyDictFacts.wf_set|].
    apply PyDictFacts.Forall_set; [done|].
    apply layer_ok_styled; [done | apply COLORS_at_palette].
  - done.
Qed.

Lemma samples_loop_ok w l : forall s,
  Forall (fun d => raw_color d ∈ COLORS) l ->
  cache_ok (layer_cache s) -> cache_ok (layer_cache (samples_loop w l s)).
Proof.
  induction l as [|d l IH]; intros s Hl [Hwf Hok]; simpl; [done|].
  apply Forall_cons in Hl as [Hd Hl]. apply IH; [done|]. simpl.
  split; [by apply PyDictFacts.wf_set|].
  apply PyDictFacts.Forall_set; [done|]. split; [done|]. by exists (raw_color d).
Qed.

Lemma refresh_all_ok w s : cache_ok (layer_cache (refresh_all w s)).
Proof.
  assert (cache_ok (layer_cache (emit LockRelease
            (refresh_loop w 0 (shps w) (with_cache [] (emit LockAcquire s)))))) as Ht.
  { rewrite emit_cache. apply refresh_loop_ok. split; [apply NoDup_nil_2 | constructor]. }
  destruct (refresh_all_cases w s) as [(_ & _ & ->)|(_ & _ & -> & _)]; [|done].
  rewrite load_samples_cache.
  apply samples_loop_ok; [apply raw_colors_in_palette | by rewrite emit_cache].
Qed.

Lemma reload_ok w path s :
  cache_ok (layer_cache s) -> cache_ok (layer_cache (_reload w path s)).
Proof.
  intros [Hwf Hok]. rewrite reload_cache.
  pose proof (load_shp_Some w path s) as Hs.
  destruct (load_shp w path s).1 as [d|].
  - destruct (Hs d eq_refl) as (Hn & _ & _).
    split; [by apply PyDictFacts.wf_set|].
    apply PyDictFacts.Forall_set; [done|].
    apply layer_ok_styled; [done | apply COLORS_at_palette].
  - split; [by apply PyDictFacts.wf_pop | by apply PyDictFacts.Forall_pop].
Qed.

Lemma perform_ok w a hs :
  cache_ok (layer_cache hs.2) -> cache_ok (layer_cache (perform w a hs).2).
Proof.
  intros Hok. destruct hs as [h s], a as [| |nm|e|e|e|t]; simpl in *.
  - apply refresh_all_ok.
  - done.
  - done.
  - unfold on_created. by destruct (negb (is_directory e)).
  - unfold on_modified. by destruct (negb (is_directory e)).
  - unfold on_deleted. destruct (_ && _); simpl; [|done].
    destruct Hok. split; [by apply PyDictFacts.wf_pop | by apply PyDictFacts.Forall_pop].
  - unfold timer_fires. simpl. destruct (started h !! t) as [[d path]|]; simpl; [|done].
    by apply reload_ok.
Qed.

Lemma reachable_cache_inv hs : reachable hs -> cache_ok (layer_cache hs.2).
Proof.
  induction 1 as [|w a hs Hr IH]; [|by apply perform_ok].
  split; [apply NoDup_nil_2 | constructor].
Qed.

(** X1.  In every state the process can reach, no name is cached twice, every
    record is filed under its own name, and every record carries the style
    of its kind in a colour taken from the palette; in particular no
    cached record lacks the style the listing reads. *)
Theorem reachable_cache_ok (hs : SHPHandler * state) :
  reachable hs ->
  cache_ok (layer_cache hs.2) /\
  Forall (fun it => is_Some (li_style it)) (list_layers hs.2).1.1.
Proof.
  intros Hr. pose proof (reachable_cache_inv hs Hr) as Hok.
  split; [done|]. destruct Hok as [_ Hok]. simpl. unfold PyDict.values.
  rewrite Forall_fmap, Forall_fmap. eapply Forall_impl; [exact Hok|].
  intros [k l] (_ & c & _ & Hs). simpl in *. by rewrite Hs.
Qed.

End Invariants.


(** * Debouncing *)

Section Debounce.

Lemma debounce_other h path delay :
  PyStr.endswith path ".shp" = false -> _debounce h path delay = h.
Proof. unfold _debounce. by intros ->. Qed.

Lemma debounce_started h path delay t :
  PyStr.endswith path ".shp" = true ->
  started (_debounce h path delay) !! t =
  if decide (t = next_timer h) then Some (delay, path)
  else match _timers h !! path with
       | Some t0 => if decide (t = t0) then None else started h !! t
       | None => started h !! t
       end.
Proof.
  unfold _debounce. intros ->. simpl. rewrite lookup_insert.
  destruct (decide (next_timer h = t)) as [->|Hne].
  - by rewrite decide_True.
  - rewrite decide_False by done.
    destruct (_timers h !! path) as [t0|]; [|done].
    rewrite lookup_delete. destruct (decide (t0 = t)) as [->|Hne'].
    + by rewrite decide_True.
    + by rewrite decide_False.
Qed.

Lemma debounce_ok h path delay : timers_ok h -> timers_ok (_debounce h path delay).
Proof.
  intros (Hst & Hinj & Hlt).
  destruct (PyStr.endswith path ".shp") eqn:He; [|by rewrite debounce_other].
  split; [|split].
  - intros t d p. rewrite debounce_started by done.
    unfold _debounce. rewrite He. simpl.
    destruct (decide (t = next_timer h)) as [->|Hne].
    + intros [= <- <-]. apply lookup_insert_eq.
    + intros Hs.
      assert (started h !! t = Some (d, p)) as Hs'.
      { destruct (_timers h !! path) as [t0|]; [|done]. by destruct (decide (t = t0)). }
      pose proof (Hst _ _ _ Hs') as Hp.
      destruct (decide (path = p)) as [->|Hpp].
      * rewrite Hp in Hs. by rewrite decide_True in Hs.
      * by rewrite lookup_insert_ne.
  - intros p1 p2 t. unfold _debounce. rewrite He. simpl.
    rewrite !lookup_insert.
    destruct (decide (path = p1)) as [<-|H1], (decide (path = p2)) as [<-|H2].
    + done.
    + intros [= <-] H. apply Hlt in H. lia.
    + intros H [= <-]. apply Hlt in H. lia.
    + apply Hinj.
  - intros p t. unfold _debounce. rewrite He. simpl. rewrite lookup_insert.
    destruct (decide (path = p)) as [<-|H1].
    + intros [= <-]. lia.
    + intros H. apply Hlt in H. lia.
Qed.

Lemma timer_fires_ok w t hs : timers_ok hs.1 -> timers_ok (timer_fires w t hs).1.
Proof.
  intros (Hst & Hinj & Hlt). unfold timer_fires.
  destruct (started hs.1 !! t) as [[d path]|]; [|done]. simpl.
  split; [|by split]. intros t' d' p'. simpl. rewrite lookup_delete.
  destruct (decide (t = t')); [done | apply Hst].
Qed.

Lemma perform_timers_ok w a hs : timers_ok hs.1 -> timers_ok (perform w a hs).1.
Proof.
  intros H. destruct a as [| |nm|e|e|e|t]; simpl; try done.
  - unfold on_created. destruct (negb (is_directory e)); [by apply debounce_ok | done].
  - unfold on_modified. destruct (negb (is_directory e)); [by apply debounce_ok | done].
  - unfold on_deleted. by destruct (_ && _).
  - by apply timer_fires_ok.
Qed.

Lemma reachable_timers_inv hs : reachable hs -> timers_ok hs.1.
Proof.
  induction 1 as [|w a hs Hr IH]; [|by apply perform_timers_ok].
  split; [|split]; simpl; intros *; by rewrite lookup_empty.
Qed.

(** X2.  In every state the process can reach, at most one timer is pending
    for a path: two started timers with the same argument are the same
    timer, so a burst of changes to one file ends in one reload. *)
Theorem reachable_one_timer_per_path
    (hs : SHPHandler * state) (t1 t2 : nat) (d1 d2 : pyval) (p : string) :
  reachable hs ->
  started hs.1 !! t1 = Some (d1, p) ->
  started hs.1 !! t2 = Some (d2, p) ->
  t1 = t2.
Proof.
  intros Hr H1 H2. destruct (reachable_timers_inv hs Hr) as (Hst & _ & _).
  apply Hst in H1, H2. congruence.
Qed.

(** X3.  A change event for a source file arms a new timer for its path with
    the default delay and cancels the timer that was pending for it: the
    new timer is then the only one started for that path, a superseded
    timer does nothing when it expires, the timers of other paths stay as
    they were, and neither the cache nor any other part of the state is
    touched.  Creation events behave alike. *)
Theorem change_event_rearms (e : FileSystemEvent) (hs : SHPHandler * state) :
  reachable hs ->
  is_directory e = false ->
  PyStr.endswith (src_path e) ".shp" = true ->
  on_created e hs = on_modified e hs /\
  (on_modified e hs).2 = hs.2 /\
  started (on_modified e hs).1 !! next_timer hs.1 = Some (default_delay, src_path e) /\
  (forall t d, started (on_modified e hs).1 !! t = Some (d, src_path e) ->
               t = next_timer hs.1) /\
  (forall w t d, started hs.1 !! t = Some (d, src_path e) ->
                 timer_fires w t (on_modified e hs) = on_modified e hs) /\
  (forall t d p, p <> src_path e ->
                 started (on_modified e hs).1 !! t = Some (d, p) <->
                 started hs.1 !! t = Some (d, p)).
Proof.
  intros Hr Hd He. pose proof (reachable_timers_inv hs Hr) as (Hst & Hinj & Hlt).
  split; [done|]. unfold on_modified. rewrite Hd. simpl.
  split; [done|]. split; [|split; [|split]].
  - rewrite debounce_started by done. by rewrite decide_True.
  - intros t d. rewrite debounce_started by done.
    destruct (decide (t = next_timer hs.1)); [done|].
    intros Hs.
    assert (started hs.1 !! t = Some (d, src_path e)) as Hs'.
    { destruct (_timers hs.1 !! src_path e) as [t0|]; [|done].
      by destruct (decide (t = t0)). }
    pose proof (Hst _ _ _ Hs') as Hp. rewrite Hp in Hs. by rewrite decide_True in Hs.
  - intros w t d Hs. unfold timer_fires. simpl.
    rewrite debounce_started by done.
    pose proof (Hst _ _ _ Hs) as Hp. pose proof (Hlt _ _ Hp) as Hlt'.
    rewrite decide_False by lia. rewrite Hp. by rewrite decide_True.
  - intros t d p Hp. rewrite debounce_started by done. split.
    + destruct (decide (t = next_timer hs.1)); [by intros [= <- <-]|].
      destruct (_timers hs.1 !! src_path e) as [t0|]; [|done].
      by destruct (decide (t = t0)).
    + intros Hs. pose proof (Hst _ _ _ Hs) as Ht. pose proof (Hlt _ _ Ht) as Hlt'.
      rewrite decide_False by lia.
      destruct (_timers hs.1 !! src_path e) as [t0|] eqn:H0; [|done].
      destruct (decide (t = t0)) as [->|]; [|done].
      destruct Hp. by apply (Hinj _ _ t0).
Qed.

(** X4.  Change events for directories and for paths that do not end in
    [.shp] are ignored, and the expiry of a timer that is not started
    (cancelled, or fired before) does nothing. *)
Theorem ignored_events (w : world) (e : FileSystemEvent) (t : nat) (hs : SHPHandler * state) :
  (is_directory e = true \/ PyStr.endswith (src_path e) ".shp" = false ->
   on_created e hs = hs /\ on_modified e hs = hs /\ on_deleted e hs = hs) /\
  (started hs.1 !! t = None -> timer_fires w t hs = hs) /\
  (timer_fires w t (timer_fires w t hs) = timer_fires w t hs).
Proof.
  split; [|split].
  - unfold on_created, on_modified, on_deleted. destruct hs as [h s]. simpl.
    intros [->| He]; simpl; [done|].
    rewrite (debounce_other _ _ _ He), He, andb_false_r. by destruct (negb _).
  - unfold timer_fires. by intros ->.
  - unfold timer_fires at 2 3. destruct (started hs.1 !! t) as [[d path]|] eqn:Hs.
    + unfold timer_fires. simpl. by rewrite lookup_delete_eq.
    + unfold timer_fires. by rewrite Hs.
Qed.

End Debounce.


(** * Lock discipline *)

Section LockDiscipline.

Lemma lock_after_app h tr1 tr2 :
  lock_after h (tr1 ++ tr2) = lock_after h tr1 ≫= fun h' => lock_after h' tr2.
Proof.
  revert h. induction tr1 as [|e tr1 IH]; intros h; [done|].
  destruct e, h; simpl; try done; apply IH.
Qed.

Lemma load_shp_lock w path s :
  exists ext, trace (load_shp w path s).2 = trace s ++ ext /\
              forall h, lock_after h ext = Some h.
Proof.
  unfold load_shp. destruct (HAS_GPD w); simpl.
  - destruct (open_frame w path); simpl.
    + by exists [ReadFile path].
    + exists [ReadFile path; PrintErr path]. by rewrite <- app_assoc.
  - exists []. by rewrite app_nil_r.
Qed.

Lemma refresh_loop_lock w l : forall i s,
  exists ext, trace (refresh_loop w i l s) = trace s ++ ext /\
              forall h, lock_after h ext = Some h.
Proof.
  induction l as [|p l IH]; intros i s; simpl.
  - exists []. by rewrite app_nil_r.
  - destruct (load_shp_lock w p s) as (ext & Hext & Hl).
    destruct (load_shp w p s) as [[d|] t]; simpl in *.
    + edestruct IH as (ext' & -> & Hl'). simpl. rewrite Hext, <- !app_assoc.
      eexists. split; [done|]. intros h.
      rewrite lock_after_app, Hl. simpl. apply Hl'.
    + edestruct IH as (ext' & -> & Hl'). rewrite Hext, <- !app_assoc.
      eexists. split; [done|]. intros h.
      rewrite lock_after_app, Hl. simpl. apply Hl'.
Qed.

Lemma refresh_all_lock w s :
  exists ext, trace (refresh_all w s) = trace s ++ ext /\ lock_after false ext = Some false.
Proof.
  destruct (refresh_loop_lock w (shps w) 0 (with_cache [] (emit LockAcquire s)))
    as (ext & Hext & Hl).
  simpl in Hext.
  destruct (refresh_all_cases w s) as [(_ & _ & ->)|(_ & _ & -> & _)].
  - rewrite load_samples_trace, emit_trace, Hext, <- !app_assoc.
    eexists. split; [done|]. simpl. rewrite lock_after_app, Hl. done.
  - rewrite emit_trace, Hext, <- !app_assoc.
    eexists. split; [done|]. simpl. rewrite lock_after_app, Hl. done.
Qed.

Lemma reload_lock w path s :
  exists ext, trace (_reload w path s) = trace s ++ ext /\ lock_after false ext = Some false.
Proof.
  unfold _reload. destruct (load_shp_lock w path s) as (ext & Hext & Hl).
  destruct (load_shp w path s) as [[d|] t]; simpl in *;
    rewrite Hext, <- !app_assoc; (eexists; split; [done|]);
    by rewrite lock_after_app, Hl.
Qed.

Lemma perform_lock w a hs :
  exists ext, trace (perform w a hs).2 = trace hs.2 ++ ext /\
              lock_after false ext = Some false.
Proof.
  destruct hs as [h s], a as [| |nm|e|e|e|t]; simpl.
  - apply refresh_all_lock.
  - rewrite <- app_assoc. by eexists.
  - rewrite <- app_assoc. by eexists.
  - exists []. rewrite app_nil_r. unfold on_created. by destruct (negb _).
  - exists []. rewrite app_nil_r. unfold on_modified. by destruct (negb _).
  - unfold on_deleted. destruct (_ && _); simpl.
    + rewrite <- app_assoc. by eexists.
    + exists []. by rewrite app_nil_r.
  - unfold timer_fires. simpl. destruct (started h !! t) as [[d path]|]; simpl.
    + apply reload_lock.
    + exists []. by rewrite app_nil_r.
Qed.

(** X5.  In every state the process can reach, the lock events recorded so
    far are well bracketed: the lock is never taken while it is held (it
    is not re-entrant, so that would block for ever), never released while
    free, and free whenever an action has finished.  In particular
    [refresh_all] calls [_load_samples] only after leaving its own [with]
    block. *)
Theorem reachable_lock_discipline (hs : SHPHandler * state) :
  reachable hs -> lock_after false (trace hs.2) = Some false.
Proof.
  induction 1 as [|w a hs Hr IH]; [done|].
  destruct (perform_lock w a hs) as (ext & -> & Hl).
  by rewrite lock_after_app, IH.
Qed.

End LockDiscipline.

(** * What a refresh leaves in the cache *)

Section RefreshResult.
Variable w : world.

Lemma raw_length : length raw = 8.
Proof. by vm_compute. Qed.

Lemma refresh_loop_len l : forall i s,
  PyDict.len (layer_cache (refresh_loop w i l s)) <= PyDict.len (layer_cache s) + length l.
Proof.
  induction l as [|p l IH]; intros i s; simpl; [lia|].
  pose proof (load_shp_cache w p s) as Hc.
  destruct (load_shp w p s) as [[d|] t]; simpl in *.
  - etrans; [apply IH|]. simpl. rewrite PyDictFacts.len_set, Hc.
    case_decide; lia.
  - etrans; [apply IH|]. rewrite Hc. lia.
Qed.

(** X6.  A refresh never leaves the cache empty: the count [do_refresh]
    answers with is the number of cached names and is at least one; it is
    eight, the number of samples, when no enumerated file loads, and at
    most the number of enumerated paths otherwise. *)
Theorem do_refresh_count (s : state) :
  (do_refresh w s).1 = length (PyDict.keys (layer_cache (do_refresh w s).2)) /\
  1 <= (do_refresh w s).1 /\
  (Forall (load_fails w) (shps w) -> (do_refresh w s).1 = 8) /\
  (Exists (fun p => ~ load_fails w p) (shps w) -> (do_refresh w s).1 <= length (shps w)).
Proof.
  unfold do_refresh. cbn [fst snd]. unfold PyDict.len, PyDict.keys.
  rewrite length_fmap. split; [done|].
  destruct (refresh_all_cases w s) as [(Hall & Ht & Heq)|(Hex & Hne & Heq & _)]; rewrite Heq.
  - pose proof (load_samples_entries w _ Ht) as Hs.
    apply Forall2_length in Hs. rewrite raw_length in Hs. rewrite Hs.
    split; [lia|]. split; [done|]. intros Hex'. exfalso.
    apply Exists_exists in Hex' as (q & Hq & Hnq).
    by apply Hnq, (proj1 (Forall_forall _ _) Hall).
  - split; [|split].
    + rewrite emit_cache in *. destruct (layer_cache _); [done | simpl; lia].
    + intros Hall. exfalso. apply Exists_exists in Hex as (q & Hq & Hnq).
      by apply Hnq, (proj1 (Forall_forall _ _) Hall).
    + intros _. rewrite emit_cache.
      pose proof (refresh_loop_len (shps w) 0 (with_cache [] (emit LockAcquire s))) as H.
      unfold PyDict.len in H. simpl in H. exact H.
Qed.

End RefreshResult.


(** * Where a cached entry comes from *)

Section Provenance.
Variable w : world.

Lemma get_Some_elem {V : Type} (c : list (string * V)) k v :
  PyDict.get k c = Some v -> (k, v) ∈ c.
Proof.
  induction c as [|[k0 v0] r IH]; simpl; [done|].
  destruct (String.eqb_spec k0 k) as [->|Hne].
  - intros [= ->]. apply list_elem_of_here.
  - intros H. by apply list_elem_of_further, IH.
Qed.

Lemma refresh_loop_get l : forall i s k v,
  PyDict.get k (layer_cache (refresh_loop w i l s)) = Some v ->
  (PyDict.get k (layer_cache s) = Some v /\
   Forall (fun q => PyStr.stem q = k -> load_fails w q) l) \/
  (exists j p,
     l !! j = Some p /\ PyStr.stem p = k /\ ~ load_fails w p /\
     file_path v = Some p /\ name v = k /\
     style v = Some (make_style (type v) (COLORS_at ((i + j) mod length COLORS))) /\
     forall j' q, j < j' -> l !! j' = Some q -> PyStr.stem q = k -> load_fails w q).
Proof.
  induction l as [|p l IH]; intros i s k v Hget.
  - left. by split.
  - cbn [refresh_loop] in Hget.
    pose proof (load_shp_cache w p s) as Hc.
    pose proof (load_shp_Some w p s) as Hs.
    pose proof (load_shp_None w p s) as Hn.
    destruct (load_shp w p s) as [[d|] t]; cbn [fst snd] in *.
    + destruct (Hs d eq_refl) as (Hname & Hpath & _).
      assert (~ load_fails w p) as Hok by (intros Hf; by apply Hn in Hf).
      apply IH in Hget as [[Hget Hrest]|(j & q & Hj & Hq & Hnq & Hfp & Hnm & Hst & Hlater)].
      * cbn in Hget. rewrite PyDictFacts.get_set, Hc in Hget. cbn in Hget.
        rewrite Hname in Hget. case_decide as Hk.
        -- right. injection Hget as <-. exists 0, p. cbn.
           split; [done|]. split; [done|]. split; [done|]. split; [done|].
           split; [by rewrite Hname|]. split; [by rewrite Nat.add_0_r|].
           intros [|j'] q Hlt Hq Hsq; [lia|]. cbn in Hq.
           by apply (proj1 (Forall_lookup _ _) Hrest j' q Hq).
        -- left. split; [done|]. constructor; [done | exact Hrest].
      * right. exists (S j), q. cbn. split; [done|]. split; [done|].
        split; [done|]. split; [done|]. split; [done|].
        split; [by rewrite Nat.add_succ_r|].
        intros [|j'] q' Hlt Hq' Hsq; [lia|]. cbn in Hq'.
        apply (Hlater j' q'); [lia | done | done].
    + apply IH in Hget as [[Hget Hrest]|(j & q & Hj & Hq & Hnq & Hfp & Hnm & Hst & Hlater)].
      * left. rewrite Hc in Hget. split; [done|].
        constructor; [|exact Hrest]. intros _. by apply Hn.
      * right. exists (S j), q. cbn. split; [done|]. split; [done|].
        split; [done|]. split; [done|]. split; [done|].
        split; [by rewrite Nat.add_succ_r|].
        intros [|j'] q' Hlt Hq' Hsq; [lia|]. cbn in Hq'.
        apply (Hlater j' q'); [lia | done | done].
Qed.

(** X7.  Every entry of the cache after a refresh is accounted for.  Either
    no enumerated file loads and the entry is a sample, filed under the
    name of its definition and without a path; or the entry was read from
    an enumerated path whose stem is its key, it carries that path, and
    its style has the palette colour of the position [j] of that path in
    the enumeration, failed loads counted, where [j] is the last position
    at which a file with that stem loads.  Nothing that was cached before
    the refresh survives it. *)
Theorem refresh_entry_provenance (s : state) (k : string) (v : layer) :
  PyDict.get k (layer_cache (refresh_all w s)) = Some v ->
  (Forall (load_fails w) (shps w) /\ file_path v = None /\
   exists d, d ∈ raw /\ k = raw_name d) \/
  (exists j p,
     shps w !! j = Some p /\ PyStr.stem p = k /\ ~ load_fails w p /\
     file_path v = Some p /\ name v = k /\
     style v = Some (make_style (type v) (COLORS_at (j mod length COLORS))) /\
     forall j' q, j < j' -> shps w !! j' = Some q -> PyStr.stem q = k -> load_fails w q).
Proof.
  destruct (refresh_all_cases w s) as [(Hall & Ht & ->)|(_ & _ & -> & _)]; intros Hget.
  - left. split; [done|].
    pose proof (load_samples_entries w _ Ht) as Hs.
    apply get_Some_elem, list_elem_of_lookup in Hget as [n Hn].
    destruct (Forall2_lookup_l _ _ _ _ _ Hs Hn) as (d & Hd & Hkd).
    split; [exact (sample_entry_no_path (k, v) d Hkd)|].
    exists d. split; [by eapply list_elem_of_lookup_2 | by destruct Hkd].
  - right. rewrite emit_cache in Hget.
    apply refresh_loop_get in Hget as [[Hget _]|H]; [done | exact H].
Qed.

End Provenance.

(** * Precedence among the keyword groups *)

Section Precedence.

Lemma name_type_loop_app a b n :
  name_type_loop (a ++ b) n =
  match name_type_loop a n with Some v => Some v | None => name_type_loop b n end.
Proof.
  induction a as [|[k v] a IH]; simpl; [done|]. by destruct (PyStr.contains k n).
Qed.

Lemma name_type_loop_kind a n v v' :
  Forall (fun kv => kv.2 = v) a -> name_type_loop a n = Some v' -> v' = v.
Proof.
  induction 1 as [|[k v0] a Hk Ha IH]; simpl; [done|].
  destruct (PyStr.contains k n); [|done]. simpl in Hk. congruence.
Qed.

Lemma name_type_loop_hit a n k v :
  (k, v) ∈ a -> PyStr.contains k n = true -> is_Some (name_type_loop a n).
Proof.
  induction a as [|[k0 v0] a IH]; simpl; intros Hin Hc; [by apply elem_of_nil in Hin|].
  destruct (PyStr.contains k0 n) eqn:Hc0; [done|].
  apply elem_of_cons in Hin as [[= -> ->]|Hin]; [congruence | by apply IH].
Qed.

Lemma name_type_loop_miss a n :
  (forall k v, (k, v) ∈ a -> PyStr.contains k n = false) -> name_type_loop a n = None.
Proof.
  induction a as [|[k0 v0] a IH]; simpl; intros H; [done|].
  rewrite (H k0 v0) by apply list_elem_of_here.
  apply IH. intros k v Hin. apply (H k v). by apply list_elem_of_further.
Qed.

Lemma NAME_TYPE_groups :
  NAME_TYPE = take 10 NAME_TYPE ++ take 12 (drop 10 NAME_TYPE) ++ drop 22 NAME_TYPE /\
  Forall (fun kv => kv.2 = polygon) (take 10 NAME_TYPE) /\
  Forall (fun kv => kv.2 = polyline) (take 12 (drop 10 NAME_TYPE)) /\
  Forall (fun kv => kv.2 = point) (drop 22 NAME_TYPE).
Proof. split; [done|]. split; [|split]; repeat constructor. Qed.

Lemma occurs_in_table k v nm :
  (k, v) ∈ NAME_TYPE ->
  occurs_ci k nm <-> PyStr.contains k (PyStr.lower nm) = true.
Proof.
  intros Hin. apply occurs_ci_contains.
  by apply (proj1 (Forall_forall _ _) PyStrFacts.NAME_TYPE_lowercase (k, v)).
Qed.

(** X9.  The keyword groups are ranked: a name containing any polygon keyword
    is a polygon layer whatever else it contains; a name containing no
    polygon keyword but some polyline keyword is a polyline layer; a point
    keyword decides only when no keyword of the two other groups occurs.
    The geometry never overrides a keyword. *)
Theorem keyword_group_precedence (nm : string) (gdf : option GeoDataFrame) :
  ((exists k, (k, polygon) ∈ NAME_TYPE /\ occurs_ci k nm) ->
   detect_type nm gdf = polygon) /\
  ((forall k, (k, polygon) ∈ NAME_TYPE -> ~ occurs_ci k nm) ->
   (exists k, (k, polyline) ∈ NAME_TYPE /\ occurs_ci k nm) ->
   detect_type nm gdf = polyline) /\
  ((forall k, (k, polygon) ∈ NAME_TYPE -> ~ occurs_ci k nm) ->
   (forall k, (k, polyline) ∈ NAME_TYPE -> ~ occurs_ci k nm) ->
   (exists k, (k, point) ∈ NAME_TYPE /\ occurs_ci k nm) ->
   detect_type nm gdf = point).
Proof.
  destruct NAME_TYPE_groups as (Hsplit & Hpg & Hpl & Hpt).
  set (pg := take 10 NAME_TYPE) in *. set (pl := take 12 (drop 10 NAME_TYPE)) in *.
  set (pt := drop 22 NAME_TYPE) in *.
  assert (forall k v, (k, v) ∈ NAME_TYPE ->
            (k, v) ∈ pg /\ v = polygon \/ (k, v) ∈ pl /\ v = polyline \/
            (k, v) ∈ pt /\ v = point) as Hwhere.
  { intros k v Hin. rewrite Hsplit in Hin. apply elem_of_app in Hin as [Hin|Hin].
    - left. split; [done|]. by apply (proj1 (Forall_forall _ _) Hpg (k, v)).
    - apply elem_of_app in Hin as [Hin|Hin].
      + right; left. split; [done|]. by apply (proj1 (Forall_forall _ _) Hpl (k, v)).
      + right; right. split; [done|]. by apply (proj1 (Forall_forall _ _) Hpt (k, v)). }
  assert (forall a, a ⊆ NAME_TYPE -> forall v,
            (forall k, (k, v) ∈ NAME_TYPE -> ~ occurs_ci k nm) ->
            Forall (fun kv => kv.2 = v) a ->
            name_type_loop a (PyStr.lower nm) = None) as Hmiss.
  { intros a Hsub v Hno Ha. apply name_type_loop_miss. intros k v' Hin.
    pose proof (proj1 (Forall_forall _ _) Ha (k, v') Hin) as Hv. simpl in Hv. subst v'.
    destruct (PyStr.contains k (PyStr.lower nm)) eqn:Hc; [|done].
    destruct (Hno k (Hsub _ Hin)). by apply (occurs_in_table k v nm (Hsub _ Hin)). }
  assert (forall a, a ⊆ NAME_TYPE -> forall v,
            (exists k, (k, v) ∈ a /\ occurs_ci k nm) ->
            Forall (fun kv => kv.2 = v) a ->
            name_type_loop a (PyStr.lower nm) = Some v) as Hhit.
  { intros a Hsub v (k & Hin & Hocc) Ha.
    apply (occurs_in_table k v nm (Hsub _ Hin)) in Hocc.
    destruct (name_type_loop_hit a _ k v Hin Hocc) as [v' Hv'].
    by rewrite Hv', (name_type_loop_kind a _ v v' Ha Hv'). }
  assert (pg ⊆ NAME_TYPE) as Spg
    by (intros x Hx; rewrite Hsplit; apply elem_of_app; by left).
  assert (pl ⊆ NAME_TYPE) as Spl
    by (intros x Hx; rewrite Hsplit; apply elem_of_app; right; apply elem_of_app; by left).
  assert (pt ⊆ NAME_TYPE) as Spt
    by (intros x Hx; rewrite Hsplit; apply elem_of_app; right; apply elem_of_app; by right).
  unfold detect_type. rewrite Hsplit, !name_type_loop_app.
  split; [|split].
  - intros (k & Hin & Hocc).
    destruct (Hwhere k polygon Hin) as [[Hk _]|[[_ ?]|[_ ?]]]; try done.
    rewrite (Hhit pg Spg polygon); [done | by exists k | done].
  - intros Hno (k & Hin & Hocc).
    destruct (Hwhere k polyline Hin) as [[_ ?]|[[Hk _]|[_ ?]]]; try done.
    rewrite (Hmiss pg Spg polygon Hno Hpg).
    rewrite (Hhit pl Spl polyline); [done | by exists k | done].
  - intros Hno1 Hno2 (k & Hin & Hocc).
    destruct (Hwhere k point Hin) as [[_ ?]|[[_ ?]|[Hk _]]]; try done.
    rewrite (Hmiss pg Spg polygon Hno1 Hpg), (Hmiss pl Spl polyline Hno2 Hpl).
    rewrite (Hhit pt Spt point); [done | by exists k | done].
Qed.

End Precedence.


(** * Paths *)

Section Paths.

Lemma length_app a b : String.length (a +:+ b) = String.length a + String.length b.
Proof. induction a as [|c a IH]; [done|]. rewrite PyStrFacts.app_cons. simpl. by rewrite IH. Qed.

Lemma substring_prefix a b : String.substring 0 (String.length a) (a +:+ b) = a.
Proof.
  induction a as [|c a IH]; [by destruct b|].
  rewrite PyStrFacts.app_cons. simpl. by rewrite IH.
Qed.

Lemma substring_all b : String.substring 0 (String.length b) b = b.
Proof. rewrite <- (PyStrFacts.app_nil_r b) at 2. apply substring_prefix. Qed.

Lemma substring_skip a n m b :
  String.substring (String.length a + n) m (a +:+ b) = String.substring n m b.
Proof. induction a as [|c a IH]; [done|]. rewrite PyStrFacts.app_cons. simpl. apply IH. Qed.

Lemma rfind_app c a b :
  PyStr.rfind c (a +:+ b) =
  match PyStr.rfind c b with
  | Some i => Some (String.length a + i)
  | None => PyStr.rfind c a
  end.
Proof.
  induction a as [|x a IH].
  - rewrite PyStrFacts.app_nil. simpl. by destruct (PyStr.rfind c b).
  - rewrite PyStrFacts.app_cons. simpl. rewrite IH. by destruct (PyStr.rfind c b).
Qed.

Lemma endswith_app_r a b suf :
  PyStr.endswith b suf = true -> PyStr.endswith (a +:+ b) suf = true.
Proof.
  intros H. induction a as [|x a IH]; [done|].
  rewrite PyStrFacts.app_cons. cbn [PyStr.endswith]. rewrite IH. apply orb_true_r.
Qed.

Lemma path_join_endswith d nm suf :
  PyStr.endswith nm suf = true -> PyStr.endswith (PyStr.path_join d nm) suf = true.
Proof.
  intros H. unfold PyStr.path_join.
  destruct (PyStr.startswith nm "/"); [done|].
  destruct (_ || _); repeat apply endswith_app_r; done.
Qed.

Lemma stem_of_name base :
  base <> "" -> PyStr.rfind "/" base = None ->
  PyStr.path_name (base +:+ ".shp") = base +:+ ".shp" /\
  (forall name, name = base +:+ ".shp" ->
     match PyStr.rfind "." name with
     | Some i =>
         if (0 <? i)%nat && (i <? String.length name - 1)%nat
         then String.substring 0 i name else name
     | None => name
     end = base).
Proof.
  intros Hne Hslash. split.
  - unfold PyStr.path_name. rewrite rfind_app. change (PyStr.rfind "/" ".shp") with (@None nat).
    by rewrite Hslash.
  - intros name ->. rewrite rfind_app.
    change (PyStr.rfind "." ".shp") with (Some 0). rewrite length_app.
    change (String.length ".shp") with 4.
    assert (0 < String.length base) as Hlen.
    { destruct base; [done | simpl; lia]. }
    destruct (Nat.ltb_spec 0 (String.length base + 0)); [|lia].
    destruct (Nat.ltb_spec (String.length base + 0) (String.length base + 4 - 1)); [|lia].
    simpl. rewrite Nat.add_0_r. apply substring_prefix.
Qed.

(** X10.  The key of a source file.  For a base name that is not empty and
    holds no slash, the stem of [dir/base.shp] is [base], whatever the
    directory and however many dots the base name has; so is the stem of
    the bare [base.shp].  Files with equal base names in different
    directories therefore share one cache key. *)
Theorem stem_of_source_path (dir base : string) :
  base <> "" ->
  PyStr.rfind "/" base = None ->
  PyStr.stem (dir +:+ "/" +:+ base +:+ ".shp") = base /\
  PyStr.stem (base +:+ ".shp") = base /\
  PyStr.endswith (dir +:+ "/" +:+ base +:+ ".shp") ".shp" = true.
Proof.
  intros Hne Hslash. destruct (stem_of_name base Hne Hslash) as [Hname Hstem].
  split; [|split].
  - unfold PyStr.stem.
    assert (PyStr.path_name (dir +:+ "/" +:+ base +:+ ".shp") = base +:+ ".shp") as ->;
      [|by apply Hstem].
    unfold PyStr.path_name.
    assert (PyStr.rfind "/" (base +:+ ".shp") = None) as Hno.
    { rewrite rfind_app. change (PyStr.rfind "/" ".shp") with (@None nat). by rewrite Hslash. }
    rewrite rfind_app. change ("/" +:+ base +:+ ".shp") with (String "/" (base +:+ ".shp")).
    cbn [PyStr.rfind]. rewrite Hno. change (Ascii.eqb "/" "/") with true. cbn iota.
    rewrite !length_app. cbn [String.length]. rewrite length_app.
    replace (S (String.length dir + 0)) with (String.length dir + 1) by lia.
    rewrite substring_skip.
    replace (String.length dir + S (String.length base + String.length ".shp") -
             (String.length dir + 1)) with (String.length (base +:+ ".shp"))
      by (rewrite length_app; lia).
    cbn [String.substring]. apply substring_all.
  - unfold PyStr.stem. rewrite Hname. by apply Hstem.
  - apply endswith_app_r. change ("/" +:+ base +:+ ".shp") with (String "/" (base +:+ ".shp")).
    cbn [PyStr.endswith]. rewrite PyStrFacts.endswith_app. apply orb_true_r.
Qed.

(** X11.  Every path a refresh enumerates ends in [.shp]: it passes the test
    the watcher applies before arming a timer or dropping an entry, so
    the two writers of the cache agree on what a source file is. *)
Theorem enumerated_paths_are_sources (w : world) (p : string) :
  In p (shps w) -> PyStr.endswith p ".shp" = true.
Proof.
  assert (forall listing nm, In nm (Glob.glob1 listing) -> PyStr.endswith nm ".shp" = true)
    as Hglob.
  { intros listing nm Hin. unfold Glob.glob1 in Hin.
    apply list_elem_of_In, list_elem_of_filter in Hin as [H _]. exact H. }
  unfold shps. rewrite in_app_iff. intros [Hin|Hin].
  - unfold Glob.glob_recursive in Hin. apply in_flat_map in Hin as (base & _ & Hin).
    apply in_flat_map in Hin as ([d listing] & _ & Hin).
    apply in_map_iff in Hin as (nm & <- & Hnm).
    apply path_join_endswith. by apply (Hglob listing).
  - unfold Glob.glob_flat in Hin. apply in_flat_map in Hin as (base & _ & Hin).
    apply in_map_iff in Hin as (nm & <- & Hnm).
    apply path_join_endswith. by apply (Hglob base.2).
Qed.

End Paths.


(** * The query surface *)

Section Query.

Lemma listed_names c :
  Forall layer_ok c ->
  li_name <$> (list_item_of <$> PyDict.values c) = PyDict.keys c.
Proof.
  unfold PyDict.values, PyDict.keys. induction 1 as [|[k l] c [Hk _] Hc IH]; [done|].
  rewrite !fmap_cons. simpl in *. by rewrite Hk, IH.
Qed.

(** X13.  In every reachable state the listing and the lookup agree: a name
    is listed exactly when [get_layer] finds it (otherwise the answer is
    the 404), no name is listed twice, the record found under a name bears
    that name, [total] is the count [health] reports, and neither route
    changes the cache. *)
Theorem listing_matches_lookup (hs : SHPHandler * state) (nm : string) :
  reachable hs ->
  (nm ∈ li_name <$> (list_layers hs.2).1.1 <-> is_Some (get_layer nm hs.2).1) /\
  NoDup (li_name <$> (list_layers hs.2).1.1) /\
  (forall l, (get_layer nm hs.2).1 = Some l -> name l = nm) /\
  (list_layers hs.2).1.2 = health hs.2 /\
  layer_cache (list_layers hs.2).2 = layer_cache hs.2 /\
  layer_cache (get_layer nm hs.2).2 = layer_cache hs.2.
Proof.
  intros Hr. destruct (reachable_cache_inv hs Hr) as [Hwf Hok].
  unfold list_layers, get_layer, health. cbn [fst snd]. rewrite !emit_cache.
  rewrite (listed_names _ Hok).
  split; [|split; [done|split; [|split; [|done]]]].
  - pose proof (PyDictFacts.get_None (layer_cache hs.2) nm) as Hn.
    destruct (PyDict.get nm (layer_cache hs.2)) as [l|] eqn:Hg.
    + split; [by eexists|]. intros _.
      destruct (decide (nm ∈ PyDict.keys (layer_cache hs.2))) as [|Hnin]; [done|].
      apply Hn in Hnin. done.
    + split; [|by intros [? ?]]. intros Hin. by apply Hn in Hin.
  - intros l Hg. apply get_Some_elem in Hg.
    by destruct (proj1 (Forall_forall _ _) Hok (nm, l) Hg) as [Hk _].
  - unfold PyDict.len, PyDict.values. by rewrite !length_fmap.
Qed.

End Query.

(** * Styles and loaded records *)

Section Records.

(** X14.  The shape of a style depends on the kind alone.  It keeps every
    default parameter of the kind, has the given colour under [color],
    repeats it under [fillColor] for polygons and points and has no
    [fillColor] for polylines, has a [radius] exactly for points, and
    holds no key twice. *)
Theorem make_style_shape (t : ltype) (c : string) :
  PyDict.wf (make_style t c) /\
  PyDict.get "color" (make_style t c) = Some (PStr c) /\
  PyDict.get "fillColor" (make_style t c) =
    (if decide (t = polyline) then None else Some (PStr c)) /\
  (forall k v, PyDict.get k (DEF_STYLE t) = Some v ->
               PyDict.get k (make_style t c) = Some v) /\
  (is_Some (PyDict.get "radius" (make_style t c)) <-> t = point) /\
  PyDict.len (make_style t c) =
    PyDict.len (DEF_STYLE t) + (if decide (t = polyline) then 1 else 2).
Proof.
  split; [|split; [|split; [|split; [|split]]]].
  - unfold make_style. destruct t; repeat apply PyDictFacts.wf_set;
      apply (bool_decide_unpack _); by vm_compute.
  - by destruct t.
  - by destruct t.
  - intros k v Hk.
    assert (k <> "color" /\ k <> "fillColor") as [H1 H2].
    { split; intros ->; destruct t; by vm_compute in Hk. }
    unfold make_style. destruct t; rewrite ?PyDictFacts.get_set;
      repeat (rewrite decide_False by done); done.
  - destruct t; split; try done; intros [v Hv]; by vm_compute in Hv.
  - by destruct t.
Qed.

End Records.


(** * What the recursive pattern matches *)

Section Recursive.

(** Induction on directory trees. *)
Lemma node_induction (P : node -> Prop)
    (HF : forall nm, P (File nm))
    (HD : forall x ch, Forall P ch -> P (Dir x ch)) : forall n, P n.
Proof.
  fix IH 1. intros [nm|x ch]; [apply HF|]. apply HD.
  induction ch as [|a r IHr]; constructor; [apply IH | exact IHr].
Qed.

Lemma rlistdir_node_below n : forall rel l',
  In (rel, l') (Glob.rlistdir_node n) <->
  match n with
  | File _ => False
  | Dir x ch =>
      Glob.ishidden x = false /\
      ((rel, l') = (x, ch) \/ exists y, rel = PyStr.path_join x y /\ below ch y l')
  end.
Proof.
  induction n as [nm|x ch IH] using node_induction; intros rel l'; [done|].
  cbn [Glob.rlistdir_node]. destruct (Glob.ishidden x) eqn:Hx.
  { split; [done | by intros [? _]]. }
  assert (forall y, In (y, l') (flat_map Glob.rlistdir_node ch) <-> below ch y l') as Hch.
  { intros y. rewrite in_flat_map. split.
    - intros (n & Hn & Hin).
      pose proof (proj1 (Forall_forall _ _) IH n (proj2 (list_elem_of_In _ _) Hn)) as Hn'.
      apply Hn' in Hin. destruct n as [|x' ch']; [done|].
      destruct Hin as [Hh [[= -> ->]|(y' & -> & Hb)]].
      + by apply below_child.
      + by eapply below_deeper.
    - intros Hb. destruct Hb as [x' ch' Hin Hh | x' ch' rel' l'' Hin Hh Hb].
      + exists (Dir x' ch'). split; [done|].
        apply (proj1 (Forall_forall _ _) IH _ (proj2 (list_elem_of_In _ _) Hin)).
        split; [done | by left].
      + exists (Dir x' ch'). split; [done|].
        apply (proj1 (Forall_forall _ _) IH _ (proj2 (list_elem_of_In _ _) Hin)).
        split; [done|]. right. by exists rel'. }
  split.
  - intros [[= <- <-]|Hin]; [by split; [|left]|].
    apply in_map_iff in Hin as ([y l0] & [= <- <-] & Hin). simpl.
    split; [done|]. right. exists y. split; [done | by apply Hch].
  - intros [_ [[= -> ->]|(y & -> & Hb)]]; [by left|].
    right. apply in_map_iff. exists (y, l'). split; [done | by apply Hch].
Qed.

Lemma rlistdir_below listing rel l' :
  In (rel, l') (Glob.rlistdir listing) <-> below listing rel l'.
Proof.
  unfold Glob.rlistdir. rewrite in_flat_map. split.
  - intros (n & Hn & Hin). apply rlistdir_node_below in Hin.
    destruct n as [|x ch]; [done|].
    destruct Hin as [Hh [[= -> ->]|(y & -> & Hb)]].
    + by apply below_child.
    + by eapply below_deeper.
  - intros [x ch Hin Hh | x ch rel' l'' Hin Hh Hb];
      exists (Dir x ch); (split; [done|]); apply rlistdir_node_below.
    + split; [done | by left].
    + split; [done|]. right. by exists rel'.
Qed.

(** X12.  What a refresh sees.  When the path of the data directory
    holds no glob magic, the enumeration of [refresh_all] holds exactly the
    entries whose name ends in [.shp] and is not hidden, in the data
    directory itself and in every directory reached from it through
    directories that are not hidden, at any depth; the path enumerated is
    the directory's path joined with the name.  Nothing inside a hidden
    directory is ever enumerated. *)
Theorem glob_recursive_spec (w : world) (p : string) :
  Glob.has_magic (DATA_DIR w) = false ->
  (In p (shps w) <->
   exists rel listing nm,
     (rel = "" /\ listing = tree w \/ below (tree w) rel listing) /\
     In nm (map node_name listing) /\
     Glob.ishidden nm = false /\ PyStr.endswith nm ".shp" = true /\
     p = PyStr.path_join (PyStr.path_join (DATA_DIR w) rel) nm).
Proof.
  intros Hm.
  assert (forall listing nm,
            In nm (Glob.glob1 listing) <->
            In nm (map node_name listing) /\ Glob.ishidden nm = false /\
            PyStr.endswith nm ".shp" = true) as Hglob.
  { intros listing nm. unfold Glob.glob1, Glob.fnmatch_shp.
    rewrite <- !list_elem_of_In, !list_elem_of_filter. tauto. }
  assert (In p (shps w) <-> In p (Glob.glob_recursive w)) as ->.
  { unfold shps. rewrite in_app_iff. split; [|by left].
    intros [H|H]; [done | by apply glob_flat_in_recursive]. }
  unfold Glob.glob_recursive, Glob.base_dirs, Glob.glob2. rewrite Hm.
  cbn [flat_map fst snd]. rewrite app_nil_r, in_app_iff, in_flat_map. split.
  - intros [Hp|([rel listing] & Hin & Hp)].
    + apply in_map_iff in Hp as (nm & <- & Hnm). apply Hglob in Hnm as (H1 & H2 & H3).
      exists "", (tree w), nm. split; [by left | done].
    + cbn [fst snd] in Hp.
      apply in_map_iff in Hp as (nm & <- & Hnm). apply Hglob in Hnm as (H1 & H2 & H3).
      exists rel, listing, nm. split; [right; by apply rlistdir_below | done].
  - intros (rel & listing & nm & Hwhere & H1 & H2 & H3 & ->).
    destruct Hwhere as [[-> ->]|Hb].
    + left. apply in_map_iff. exists nm. split; [done | by apply Hglob].
    + right. exists (rel, listing). cbn [fst snd].
      split; [by apply rlistdir_below|].
      apply in_map_iff. exists nm. split; [done | by apply Hglob].
Qed.

End Recursive.

(** * More on the writers of the cache *)

Section Writers.
Variable w : world.

Lemma to_geojson_types d :
  geojson_geometry_types (to_geojson d) =
  Some (replicate (length (raw_features d))
          match raw_type d with
          | polygon => "Polygon" | polyline => "LineString" | point => "Point"
          end).
Proof.
  unfold to_geojson, geojson_geometry_types. cbn [PyDict.get String.eqb Ascii.eqb Bool.eqb].
  simpl. induction (raw_features d) as [|f fs IH]; [done|].
  cbn [map mapM length replicate]. rewrite IH. done.
Qed.

(** X16.  The samples are consistent records.  After the fallback every cached
    entry holds a feature collection with exactly [count] features, all of
    one geometry type, and [GEOM_MAP] sends that type to the kind of the
    entry: the kind written in a sample definition is the kind geometry
    inspection would have found. *)
Theorem samples_consistent (s : state) :
  layer_cache s = [] ->
  Forall (fun kv =>
            exists ts, geojson_geometry_types (geojson kv.2) = Some ts /\
                       length ts = count kv.2 /\
                       Forall (fun t => GEOM_MAP_get (Some t) polygon = type kv.2) ts)
         (layer_cache (_load_samples w s)).
Proof.
  intros Hs. pose proof (load_samples_entries w s Hs) as Hall.
  induction Hall as [|[k l] d c ds [_ Hl] _ IH]; constructor; [|exact IH].
  cbn [snd] in *.
  assert (geojson l = to_geojson d) as -> by (by apply (f_equal geojson) in Hl).
  assert (count l = length (raw_features d)) as -> by (by apply (f_equal count) in Hl).
  assert (type l = raw_type d) as -> by (by apply (f_equal type) in Hl).
  eexists. split; [apply to_geojson_types|]. split; [apply length_replicate|].
  apply Forall_replicate. by destruct (raw_type d).
Qed.

Lemma pop_absent {V : Type} (c : list (string * V)) k :
  k ∉ PyDict.keys c -> PyDict.pop k c = c.
Proof.
  unfold PyDict.keys. induction c as [|[k0 v0] r IH]; simpl; [done|].
  intros [Hne Hk]%not_elem_of_cons.
  destruct (String.eqb_spec k0 k); [congruence|]. by rewrite IH.
Qed.

(** X17.  Removing what is not there.  A deletion event for a source file
    whose stem is no key of the cache leaves the cache as it is, with no
    error; hence a second deletion event for the same file changes nothing
    the first one left. *)
Theorem on_deleted_absent (e : FileSystemEvent) (h : SHPHandler) (s : state) :
  PyDict.wf (layer_cache s) ->
  (PyStr.stem (src_path e) ∉ PyDict.keys (layer_cache s) ->
   layer_cache (on_deleted e (h, s)).2 = layer_cache s) /\
  layer_cache (on_deleted e (on_deleted e (h, s))).2 = layer_cache (on_deleted e (h, s)).2.
Proof.
  intros Hwf.
  assert (forall c : list (string * layer), PyDict.wf c ->
            PyStr.stem (src_path e) ∉ PyDict.keys (PyDict.pop (PyStr.stem (src_path e)) c))
    as Hgone.
  { intros c Hc. apply PyDictFacts.get_None. rewrite PyDictFacts.get_pop by done.
    by rewrite decide_True. }
  unfold on_deleted. destruct (negb (is_directory e) && _); simpl; [|done].
  split; [apply pop_absent | apply pop_absent, Hgone, Hwf].
Qed.

Lemma refresh_loop_keeps l : forall i s k,
  is_Some (PyDict.get k (layer_cache s)) \/
  (exists p, In p l /\ PyStr.stem p = k /\ ~ load_fails w p) ->
  is_Some (PyDict.get k (layer_cache (refresh_loop w i l s))).
Proof.
  induction l as [|p l IH]; intros i s k H.
  - destruct H as [H|(p & [] & _)]. exact H.
  - cbn [refresh_loop].
    pose proof (load_shp_cache w p s) as Hc.
    pose proof (load_shp_Some w p s) as Hs.
    pose proof (load_shp_None w p s) as Hn.
    destruct (load_shp w p s) as [[d|] t]; cbn [fst snd] in *; apply IH.
    + destruct (Hs d eq_refl) as (Hname & _ & _).
      cbn. rewrite PyDictFacts.get_set, Hc. cbn. rewrite Hname.
      destruct (decide (PyStr.stem p = k)) as [Hk|Hk]; [left; by eexists|].
      destruct H as [H|(q & [<-|Hq] & Hsq & Hok)]; [by left | done |].
      right. by exists q.
    + rewrite Hc. destruct H as [H|(q & [<-|Hq] & Hsq & Hok)]; [by left | |].
      * destruct Hok. by apply Hn.
      * right. by exists q.
Qed.

(** X8.  No loadable file is lost.  Every enumerated path that loads has,
    after the refresh, an entry under its stem. *)
Theorem refresh_keeps_loadable (s : state) (p : string) :
  In p (shps w) -> ~ load_fails w p ->
  is_Some (PyDict.get (PyStr.stem p) (layer_cache (refresh_all w s))).
Proof.
  intros Hin Hok.
  destruct (refresh_all_cases w s) as [(Hall & _ & _)|(_ & _ & -> & _)].
  - destruct Hok. by apply (proj1 (Forall_forall _ _) Hall p), list_elem_of_In.
  - rewrite emit_cache. apply refresh_loop_keeps. right. by exists p.
Qed.

Lemma COLORS_at_next n :
  COLORS_at (n mod length COLORS) <> COLORS_at (S n mod length COLORS).
Proof.
  change (length COLORS) with 15.
  replace (S n) with (n + 1) by lia. rewrite Nat.Div0.add_mod by lia.
  pose proof (Nat.mod_upper_bound n 15) as Hr.
  destruct (n mod 15) as [|[|[|[|[|[|[|[|[|[|[|[|[|[|[|r]]]]]]]]]]]]]]]; try (by vm_compute); lia.
Qed.

(** X18.  Reloading is not idempotent at first.  With the file unchanged and
    loadable, the reload that first caches a name colours it by the size
    the cache had without it, and the next reload recolours it by the size
    the cache has with it, which is the next colour of the palette; from
    then on, and whenever the name was cached already, a further reload
    changes nothing but the load time. *)
Theorem reload_recolours (path : string) (s : state) :
  PyDict.wf (layer_cache s) ->
  ~ load_fails w path ->
  (PyStr.stem path ∉ PyDict.keys (layer_cache s) ->
   style <$> PyDict.get (PyStr.stem path) (layer_cache (_reload w path s)) <>
   style <$> PyDict.get (PyStr.stem path)
               (layer_cache (_reload w path (_reload w path s)))) /\
  (PyStr.stem path ∈ PyDict.keys (layer_cache s) ->
   content (layer_cache (_reload w path (_reload w path s))) =
   content (layer_cache (_reload w path s))) /\
  content (layer_cache (_reload w path (_reload w path (_reload w path s)))) =
  content (layer_cache (_reload w path (_reload w path s))).
Proof.
  intros Hwf Hok.
  assert (forall t, exists d,
            (load_shp w path t).1 = Some d /\ name d = PyStr.stem path) as Hload.
  { intros t. pose proof (load_shp_None w path t) as Hn.
    pose proof (load_shp_Some w path t) as Hs.
    destruct (load_shp w path t).1 as [d|]; [|destruct Hok; by apply Hn].
    exists d. split; [done|]. by destruct (Hs d eq_refl). }
  assert (forall t, PyStr.stem path ∈ PyDict.keys (layer_cache (_reload w path t))) as Hin.
  { intros t. rewrite reload_cache. destruct (Hload t) as (d & -> & _).
    apply PyDictFacts.keys_set. by left. }
  assert (forall t, PyStr.stem path ∈ PyDict.keys (layer_cache t) ->
            content (layer_cache (_reload w path (_reload w path t))) =
            content (layer_cache (_reload w path t))) as Hstable.
  { intros t Ht. rewrite (reload_cache w path (_reload w path t)), (reload_cache w path t).
    destruct (Hload t) as (d1 & Hd1 & Hn1).
    destruct (Hload (_reload w path t)) as (d2 & Hd2 & Hn2).
    pose proof (load_shp_untimed w path t (_reload w path t)) as Hu.
    rewrite Hd1, Hd2 in *. cbn in Hu. apply (inj Some) in Hu.
    rewrite !PyDictFacts.len_set. rewrite decide_True by done.
    rewrite !content_set.
    rewrite <- (untimed_type _ _ Hu).
    rewrite <- (untimed_set_style d1 d2 _ Hu).
    set (v := untimed (set_style d1 _)). set (c := content (layer_cache t)).
    clearbody v c. clear. induction c as [|[k0 v0] r IH]; simpl.
    - by rewrite String.eqb_refl.
    - destruct (String.eqb k0 (PyStr.stem path)) eqn:Hk; simpl; rewrite Hk; [done|].
      by rewrite IH. }
  split; [|split; [by apply Hstable | by apply Hstable]].
  intros Hnew. rewrite (reload_cache w path (_reload w path s)), (reload_cache w path s).
  destruct (Hload s) as (d1 & Hd1 & Hn1).
  destruct (Hload (_reload w path s)) as (d2 & Hd2 & Hn2).
  pose proof (load_shp_untimed w path s (_reload w path s)) as Hu.
  rewrite Hd1, Hd2 in *. cbn in Hu. apply (inj Some) in Hu.
  rewrite !PyDictFacts.get_set, !decide_True by done.
  rewrite PyDictFacts.len_set, decide_False by done. cbn.
  rewrite <- (untimed_type _ _ Hu). intros [= Heq].
  apply (f_equal (PyDict.get "color")) in Heq. rewrite !make_style_color in Heq.
  injection Heq as Heq. by apply COLORS_at_next in Heq.
Qed.

End Writers.

(** * The theorems above at concrete states *)

Section Instances.

Lemma reachable_cache_ok_witness : cache_ok (layer_cache demo_state.2).
Proof.
  apply (reachable_cache_ok demo_state).
  unfold demo_state. apply reachable_step, reachable_step, reachable_init.
Defined.

Lemma reachable_one_timer_per_path_witness :
  started rearmed_state.1 !! 0 = None /\
  started rearmed_state.1 !! 1 = Some (default_delay, "/srv/backend/data/roads.shp") /\
  forall t d, started rearmed_state.1 !! t = Some (d, "/srv/backend/data/roads.shp") -> t = 1.
Proof.
  assert (started rearmed_state.1 !! 1 = Some (default_delay, "/srv/backend/data/roads.shp"))
    as H1 by (vm_compute; reflexivity).
  split; [vm_compute; reflexivity|]. split; [exact H1|].
  intros t d Ht.
  apply (reachable_one_timer_per_path rearmed_state t 1 d default_delay
           "/srv/backend/data/roads.shp"); [|exact Ht|exact H1].
  unfold rearmed_state, demo_state.
  apply reachable_step, reachable_step, reachable_step, reachable_init.
Defined.

Lemma change_event_rearms_witness :
  started (on_modified roads_changed demo_state).1 !! next_timer demo_state.1 =
    Some (default_delay, src_path roads_changed) /\
  forall w d, started demo_state.1 !! 0 = Some (d, src_path roads_changed) ->
    timer_fires w 0 (on_modified roads_changed demo_state) =
    on_modified roads_changed demo_state.
Proof.
  destruct (change_event_rearms roads_changed demo_state) as (_ & _ & H1 & _ & H2 & _).
  - unfold demo_state. apply reachable_step, reachable_step, reachable_init.
  - reflexivity.
  - reflexivity.
  - split; [exact H1|]. intros w d. apply H2.
Defined.

Lemma ignored_events_witness :
  on_modified readme_changed demo_state = demo_state /\
  on_deleted readme_changed demo_state = demo_state.
Proof.
  destruct (ignored_events one_file_world readme_changed 0 demo_state) as [H _].
  destruct H as (_ & H2 & H3); [right; reflexivity|]. split; [exact H2 | exact H3].
Defined.

Lemma reachable_lock_discipline_witness :
  lock_after false (trace demo_state.2) = Some false.
Proof.
  apply (reachable_lock_discipline demo_state).
  unfold demo_state. apply reachable_step, reachable_step, reachable_init.
Defined.

Lemma do_refresh_count_witness : (do_refresh empty_world init_state).1 = 8.
Proof.
  destruct (do_refresh_count empty_world init_state) as (_ & _ & H & _).
  apply H. change (shps empty_world) with (@nil string). constructor.
Defined.

Lemma refresh_entry_provenance_witness :
  exists v,
    PyDict.get "roads" (layer_cache (refresh_all one_file_world init_state)) = Some v /\
    ((Forall (load_fails one_file_world) (shps one_file_world) /\ file_path v = None /\
      exists d, d ∈ raw /\ "roads" = raw_name d) \/
     (exists j p,
        shps one_file_world !! j = Some p /\ PyStr.stem p = "roads" /\
        ~ load_fails one_file_world p /\
        file_path v = Some p /\ name v = "roads" /\
        style v = Some (make_style (type v) (COLORS_at (j mod length COLORS))) /\
        forall j' q, j < j' -> shps one_file_world !! j' = Some q ->
                     PyStr.stem q = "roads" -> load_fails one_file_world q)).
Proof.
  destruct (PyDict.get "roads" (layer_cache (refresh_all one_file_world init_state)))
    as [v|] eqn:E; [|by vm_compute in E].
  exists v. split; [done|].
  exact (refresh_entry_provenance one_file_world init_state "roads" v E).
Defined.

Lemma keyword_group_precedence_witness :
  detect_type "Water_Boundary_Chambers" (Some two_points) = polygon.
Proof.
  destruct (keyword_group_precedence "Water_Boundary_Chambers" (Some two_points)) as [H _].
  apply H. exists "boundary". split.
  - apply (bool_decide_unpack _). by vm_compute.
  - by exists "water_", "_chambers".
Defined.

Lemma stem_of_source_path_witness :
  PyStr.stem ("/srv/backend/data/north" +:+ "/" +:+ "water.supply" +:+ ".shp") = "water.supply".
Proof.
  destruct (stem_of_source_path "/srv/backend/data/north" "water.supply") as [H _];
    [done | reflexivity | exact H].
Defined.

Lemma enumerated_paths_are_sources_witness :
  PyStr.endswith "/srv/backend/data/roads.shp" ".shp" = true.
Proof.
  apply (enumerated_paths_are_sources one_file_world).
  simpl. by left.
Defined.

Lemma listing_matches_lookup_witness :
  "roads" ∈ li_name <$> (list_layers demo_state.2).1.1 <->
  is_Some (get_layer "roads" demo_state.2).1.
Proof.
  destruct (listing_matches_lookup demo_state "roads") as [H _]; [|exact H].
  unfold demo_state. apply reachable_step, reachable_step, reachable_init.
Defined.

Lemma glob_recursive_spec_witness :
  In "/srv/backend/data/roads.shp" (shps one_file_world) <->
  exists rel listing nm,
    (rel = "" /\ listing = tree one_file_world \/ below (tree one_file_world) rel listing) /\
    In nm (map node_name listing) /\
    Glob.ishidden nm = false /\ PyStr.endswith nm ".shp" = true /\
    "/srv/backend/data/roads.shp" =
      PyStr.path_join (PyStr.path_join (DATA_DIR one_file_world) rel) nm.
Proof.
  apply (glob_recursive_spec one_file_world "/srv/backend/data/roads.shp").
  reflexivity.
Defined.

Lemma samples_consistent_witness :
  Forall (fun kv =>
            exists ts, geojson_geometry_types (geojson kv.2) = Some ts /\
                       length ts = count kv.2 /\
                       Forall (fun t => GEOM_MAP_get (Some t) polygon = type kv.2) ts)
         (layer_cache (_load_samples empty_world init_state)).
Proof. exact (samples_consistent empty_world init_state eq_refl). Defined.

Lemma on_deleted_absent_witness :
  layer_cache (on_deleted roads_changed (SHPHandler_init, init_state)).2 =
  layer_cache init_state.
Proof.
  destruct (on_deleted_absent roads_changed SHPHandler_init init_state) as [H _].
  - apply NoDup_nil_2.
  - apply H. apply not_elem_of_nil.
Defined.

Lemma refresh_keeps_loadable_witness :
  is_Some (PyDict.get (PyStr.stem "/srv/backend/data/roads.shp")
             (layer_cache (refresh_all one_file_world init_state))).
Proof.
  apply (refresh_keeps_loadable one_file_world init_state "/srv/backend/data/roads.shp").
  - simpl. by left.
  - intros [H|H]; by vm_compute in H.
Defined.

Lemma reload_recolours_witness :
  style <$> PyDict.get (PyStr.stem "/srv/backend/data/roads.shp")
              (layer_cache (_reload one_file_world "/srv/backend/data/roads.shp" init_state)) <>
  style <$> PyDict.get (PyStr.stem "/srv/backend/data/roads.shp")
              (layer_cache (_reload one_file_world "/srv/backend/data/roads.shp"
                 (_reload one_file_world "/srv/backend/data/roads.shp" init_state))).
Proof.
  destruct (reload_recolours one_file_world "/srv/backend/data/roads.shp" init_state)
    as [H _].
  - apply NoDup_nil_2.
  - intros [H|H]; by vm_compute in H.
  - apply H. apply not_elem_of_nil.
Defined.

Lemma make_style_shape_witness :
  PyDict.get "weight" (make_style polyline "#4FC3F7") = Some (PInt 3).
Proof.
  destruct (make_style_shape polyline "#4FC3F7") as (_ & _ & _ & H & _).
  apply H. reflexivity.
Defined.

End Instances.
